(** * A proof-of-work ledger: blocks, transactions, canonical hashing and mining

    Shallow embedding of [block.py]: the value model of the records it builds,
    the canonical hash [get_hash] (JSON text with sorted keys, then SHA-256),
    [Amount], [Transaction], [Block], the persistence pair [to_db]/[from_db],
    [Node.process_txns] with its mining loop, and [validate_hash]. *)

From Stdlib Require Import String Ascii ZArith List Bool Lia Arith.
From Stdlib Require Import Permutation Sorted SpecFloat.
From Stdlib Require Import DecimalString DecimalFacts DecimalPos DecimalZ.
Import ListNotations.

Local Open Scope string_scope.
Local Open Scope list_scope.
Local Open Scope Z_scope.

(** ** SHA-256 ([hashlib.sha256]), on 32-bit words written as [Z] *)

Module SHA256.

Definition w32 (x : Z) : Z := Z.land x 4294967295.
Definition add32 (x y : Z) : Z := w32 (x + y).
Definition rotr (n x : Z) : Z :=
  w32 (Z.lor (Z.shiftr x n) (Z.shiftl x (32 - n))).
Definition not32 (x : Z) : Z := Z.lxor x 4294967295.

Definition Ch (x y z : Z) : Z := Z.lxor (Z.land x y) (Z.land (not32 x) z).
Definition Maj (x y z : Z) : Z :=
  Z.lxor (Z.lxor (Z.land x y) (Z.land x z)) (Z.land y z).
Definition Sigma0 (x : Z) : Z := Z.lxor (Z.lxor (rotr 2 x) (rotr 13 x)) (rotr 22 x).
Definition Sigma1 (x : Z) : Z := Z.lxor (Z.lxor (rotr 6 x) (rotr 11 x)) (rotr 25 x).
Definition sigma0 (x : Z) : Z := Z.lxor (Z.lxor (rotr 7 x) (rotr 18 x)) (Z.shiftr x 3).
Definition sigma1 (x : Z) : Z := Z.lxor (Z.lxor (rotr 17 x) (rotr 19 x)) (Z.shiftr x 10).

(** The round constants: the first 32 bits of the fractional parts of the
    cube roots of the first 64 primes. *)
Definition K : list Z :=
  [
    1116352408; 1899447441; 3049323471; 3921009573; 961987163; 1508970993;
    2453635748; 2870763221; 3624381080; 310598401; 607225278; 1426881987;
    1925078388; 2162078206; 2614888103; 3248222580; 3835390401; 4022224774;
    264347078; 604807628; 770255983; 1249150122; 1555081692; 1996064986;
    2554220882; 2821834349; 2952996808; 3210313671; 3336571891; 3584528711;
    113926993; 338241895; 666307205; 773529912; 1294757372; 1396182291;
    1695183700; 1986661051; 2177026350; 2456956037; 2730485921; 2820302411;
    3259730800; 3345764771; 3516065817; 3600352804; 4094571909; 275423344;
    430227734; 506948616; 659060556; 883997877; 958139571; 1322822218;
    1537002063; 1747873779; 1955562222; 2024104815; 2227730452; 2361852424;
    2428436474; 2756734187; 3204031479; 3329325298
  ].

(** The eight working words. *)
Record state := St { sa : Z; sb : Z; sc : Z; sd : Z; se : Z; sf : Z; sg : Z; sh : Z }.

(** The initial words: the first 32 bits of the fractional parts of the
    square roots of the first 8 primes. *)
Definition H0 : state :=
  St 1779033703 3144134277 1013904242 2773480762
     1359893119 2600822924 528734635 1541459225.

(** Padding: the byte 0x80, zeros up to 56 mod 64, the bit length on 8 bytes. *)
Definition be_bytes (n : nat) (x : Z) : list Z :=
  map (fun i => Z.land (Z.shiftr x (8 * Z.of_nat i)) 255) (rev (seq 0 n)).

Definition pad (msg : list Z) : list Z :=
  let len := Z.of_nat (length msg) in
  msg ++ [128] ++ repeat 0 (Z.to_nat ((55 - len) mod 64)) ++ be_bytes 8 (8 * len).

Fixpoint be_words (bs : list Z) : list Z :=
  match bs with
  | b0 :: b1 :: b2 :: b3 :: rest =>
      (Z.shiftl b0 24 + Z.shiftl b1 16 + Z.shiftl b2 8 + b3) :: be_words rest
  | _ => []
  end.

(** Message schedule; [rw] holds W[t-1], W[t-2], ... (latest first). *)
Fixpoint schedule (n : nat) (rw : list Z) : list Z :=
  match n with
  | O => rw
  | S n' =>
      let w := add32 (add32 (sigma1 (nth 1 rw 0)) (nth 6 rw 0))
                     (add32 (sigma0 (nth 14 rw 0)) (nth 15 rw 0)) in
      schedule n' (w :: rw)
  end.

Definition round (s : state) (kw : Z * Z) : state :=
  let t1 := add32 (add32 (add32 (sh s) (Sigma1 (se s))) (Ch (se s) (sf s) (sg s)))
                  (add32 (fst kw) (snd kw)) in
  let t2 := add32 (Sigma0 (sa s)) (Maj (sa s) (sb s) (sc s)) in
  St (add32 t1 t2) (sa s) (sb s) (sc s) (add32 (sd s) t1) (se s) (sf s) (sg s).

Definition compress (h : state) (block : list Z) : state :=
  let w := rev (schedule 48 (rev (be_words block))) in
  let s := fold_left round (combine K w) h in
  St (add32 (sa h) (sa s)) (add32 (sb h) (sb s)) (add32 (sc h) (sc s)) (add32 (sd h) (sd s))
     (add32 (se h) (se s)) (add32 (sf h) (sf s)) (add32 (sg h) (sg s)) (add32 (sh h) (sh s)).

Fixpoint blocks (n : nat) (h : state) (bs : list Z) : state :=
  match n with
  | O => h
  | S n' =>
      match bs with
      | [] => h
      | _ => blocks n' (compress h (firstn 64 bs)) (skipn 64 bs)
      end
  end.

Definition digest (msg : list Z) : state :=
  let p := pad msg in blocks (length p) H0 p.

(** [hexdigest]: eight words, eight lowercase hex digits each. *)
Definition hex_digit (n : Z) : ascii :=
  match n with
  | 0 => "0" | 1 => "1" | 2 => "2" | 3 => "3" | 4 => "4" | 5 => "5" | 6 => "6" | 7 => "7"
  | 8 => "8" | 9 => "9" | 10 => "a" | 11 => "b" | 12 => "c" | 13 => "d" | 14 => "e" | _ => "f"
  end%char.

Definition hex_word (x : Z) : list ascii :=
  map (fun i => hex_digit (Z.land (Z.shiftr x (4 * Z.of_nat i)) 15)) (rev (seq 0 8)).

Definition words (s : state) : list Z :=
  [sa s; sb s; sc s; sd s; se s; sf s; sg s; sh s].

Definition hexdigest (msg : list Z) : string :=
  string_of_list_ascii (concat (map hex_word (words (digest msg)))).

End SHA256.


(** ** Python values

    The scalars the records carry: [None], [bool], [int], [float], [str].
    A [float] is a binary64 value in the standard library's [spec_float];
    a [str] is a sequence of code points below 256. *)

Inductive atom :=
| ANone
| ABool (b : bool)
| AInt (z : Z)
| AFloat (f : spec_float)
| AStr (s : string).

(** [bool(x)], as [or] and [if] take it. *)
Definition truthy (x : atom) : bool :=
  match x with
  | ANone => false
  | ABool b => b
  | AInt z => negb (z =? 0)
  | AFloat (S754_zero _) => false
  | AFloat _ => true
  | AStr s => negb (s =? "")%string
  end.

(** [int == float] compares the exact values. *)
Definition float_eq_int (f : spec_float) (z : Z) : bool :=
  match f with
  | S754_zero _ => z =? 0
  | S754_finite s m e =>
      let v := if s then Z.neg m else Z.pos m in
      if 0 <=? e then z =? v * 2 ^ e else z * 2 ^ (- e) =? v
  | _ => false
  end.

Definition int_of_bool (b : bool) : Z := if b then 1 else 0.

(** [x == y] on scalars: [bool] is an [int], numbers compare by value
    across [int] and [float], NaN equals nothing, [-0.0 == 0.0]. *)
Definition py_eq (x y : atom) : bool :=
  match x, y with
  | ANone, ANone => true
  | AStr s, AStr t => (s =? t)%string
  | ABool a, ABool b => int_of_bool a =? int_of_bool b
  | ABool a, AInt z | AInt z, ABool a => int_of_bool a =? z
  | AInt a, AInt b => a =? b
  | ABool a, AFloat f | AFloat f, ABool a => float_eq_int f (int_of_bool a)
  | AInt z, AFloat f | AFloat f, AInt z => float_eq_int f z
  | AFloat f, AFloat g => SFeqb f g
  | _, _ => false
  end.

(** A JSON-shaped value: a scalar, a [list], or a [dict] with [str] keys.
    A [dict] keeps its items in insertion order. *)
Unset Elimination Schemes.
Inductive json :=
| JAtom (a : atom)
| JList (l : list json)
| JDict (d : list (string * json)).
Set Elimination Schemes.

Fixpoint lookup {A : Type} (k : string) (d : list (string * A)) : option A :=
  match d with
  | [] => None
  | (k', v) :: d' => if (k =? k')%string then Some v else lookup k d'
  end.

(** Two values with the same content: the same scalars, lists of the same
    length with the same content at each index, and dicts whose items (with
    distinct keys) are those of the other one in some order, each with the
    same content. *)
Unset Elimination Schemes.
Inductive same_content : json -> json -> Prop :=
| same_atom (a : atom) : same_content (JAtom a) (JAtom a)
| same_list (l1 l2 : list json) :
    Forall2 same_content l1 l2 -> same_content (JList l1) (JList l2)
| same_dict (d1 d2 d2' : list (string * json)) :
    NoDup (map fst d1) ->
    Permutation d2' d2 ->
    Forall2 (fun x y => fst x = fst y /\ same_content (snd x) (snd y)) d1 d2' ->
    same_content (JDict d1) (JDict d2).
Set Elimination Schemes.

Definition hex_chars : list ascii := list_ascii_of_string "0123456789abcdef".

(** ** [json.dumps(_, sort_keys=True)] *)

Definition dq : ascii := "034"%char.

Definition hex4 (n : N) : string :=
  string_of_list_ascii
    (map (fun i => SHA256.hex_digit (Z.land (Z.shiftr (Z.of_N n) (4 * Z.of_nat i)) 15))
         (rev (seq 0 4))).

(** One character of a string, as [ensure_ascii] writes it. *)
Definition escape_char (c : ascii) : string :=
  let n := N_of_ascii c in
  if (n =? 34)%N then String "\" (String dq "")
  else if (n =? 92)%N then "\\"
  else if (n =? 10)%N then "\n"
  else if (n =? 13)%N then "\r"
  else if (n =? 9)%N then "\t"
  else if (n =? 8)%N then "\b"
  else if (n =? 12)%N then "\f"
  else if ((32 <=? n) && (n <=? 126))%N then String c ""
  else "\u" ++ hex4 n.

Fixpoint escape (s : string) : string :=
  match s with
  | EmptyString => ""
  | String c s' => escape_char c ++ escape s'
  end.

Definition quote (s : string) : string := String dq (escape s ++ String dq "").

(** [", ".join(parts)] *)
Fixpoint join (sep : string) (parts : list string) : string :=
  match parts with
  | [] => ""
  | [p] => p
  | p :: rest => p ++ sep ++ join sep rest
  end.

(** Items sorted by key (the keys of a [dict] are distinct, so the order on
    items is the order on keys), by insertion from the right. *)
Fixpoint insert_item {A : Type} (x : string * A) (l : list (string * A)) : list (string * A) :=
  match l with
  | [] => [x]
  | y :: l' => if String.leb (fst x) (fst y) then x :: l else y :: insert_item x l'
  end.

Fixpoint sort_items {A : Type} (l : list (string * A)) : list (string * A) :=
  match l with
  | [] => []
  | x :: l' => insert_item x (sort_items l')
  end.

Definition int_str (z : Z) : string := DecimalString.NilZero.string_of_int (Z.to_int z).

Definition encode_utf8 (s : string) : list Z :=
  flat_map (fun c => let n := Z.of_N (N_of_ascii c) in
                     if n <? 128 then [n]
                     else [Z.lor 192 (Z.shiftr n 6); Z.lor 128 (Z.land n 63)])
           (list_ascii_of_string s).

(** ** The program state

    The objects the code mutates or shares live in a store and are named by
    their index: the [list] objects that hold transactions, and the [Block]
    objects. [Amount] and [Transaction] objects are never mutated and are
    carried as values. The state also holds the clock ([time.time()] returns
    [clock reads] and moves on), what [print] wrote, and the rows of the
    [Blocks] table behind [db_con]. *)

Record Amount := { uuid : atom; amount : atom }.

Record Transaction := { inputs : list Amount; outputs : list Amount; timestamp : atom }.

Definition ref := nat.

Record Block := { prev_hash : atom; txns : ref; nonce : atom; difficulty : atom }.

Record Node := { Node_uuid : atom; blocks : list ref }.

(** [block.nonce = n] on the fields of a [Block]. *)
Definition set_nonce (b : Block) (n : atom) : Block :=
  {| prev_hash := prev_hash b; txns := txns b; nonce := n; difficulty := difficulty b |}.

Record world := {
  clock : nat -> spec_float;
  reads : nat;
  stdout : list string;
  lists : list (list Transaction);
  objects : list Block;
  Blocks : list (Z * string)
}.

(** NaN is the scalar that is not equal to itself. *)
Definition is_nan (x : atom) : bool :=
  match x with AFloat S754_nan => true | _ => false end.

Definition nan_free (a : Amount) : bool :=
  negb (is_nan (uuid a)) && negb (is_nan (amount a)).

(** The clock reads positive finite floats: seconds since 1970. *)
Definition clock_positive (w : world) : Prop :=
  forall n, exists m e, clock w n = S754_finite false m e.

(** The exceptions of the code, and two ends of the model: a reference to no
    object ([Dangling]), and what lies outside the modelled part ([Unmodelled]:
    a field that is not a scalar, a code point above 255, an SQL statement
    that goes on after its string literal). *)
Inductive exn :=
  KeyError | TypeError | JSONDecodeError | OperationalError | Dangling | Unmodelled.

(** What a call does: return a value in a new state, raise, or still be in
    its loop when the fuel given to the model is spent. *)
Inductive outcome (A : Type) :=
| Ok (a : A) (w : world)
| Raise (e : exn)
| Running.
Arguments Ok {A} a w.
Arguments Raise {A} e.
Arguments Running {A}.

Definition M (A : Type) : Type := world -> outcome A.

Definition ret {A : Type} (a : A) : M A := fun w => Ok a w.
Definition raise {A : Type} (e : exn) : M A := fun _ => Raise e.
Definition bind {A B : Type} (c : M A) (k : A -> M B) : M B :=
  fun w => match c w with
           | Ok a w' => k a w'
           | Raise e => Raise e
           | Running => Running
           end.

Notation "x <- c ;; k" := (bind c (fun x => k))
  (at level 61, c at next level, right associativity).
Notation "c ;; k" := (bind c (fun _ => k))
  (at level 61, right associativity).

Fixpoint mapM {A B : Type} (f : A -> M B) (l : list A) : M (list B) :=
  match l with
  | [] => ret []
  | x :: l' => y <- f x ;; ys <- mapM f l' ;; ret (y :: ys)
  end.

Definition of_option {A : Type} (e : exn) (o : option A) : M A :=
  match o with Some a => ret a | None => raise e end.

Fixpoint set_nth {A : Type} (i : nat) (x : A) (l : list A) : list A :=
  match l, i with
  | [], _ => []
  | _ :: l', O => x :: l'
  | y :: l', S i' => y :: set_nth i' x l'
  end.

Definition set_reads (n : nat) (w : world) : world :=
  {| clock := clock w; reads := n; stdout := stdout w;
     lists := lists w; objects := objects w; Blocks := Blocks w |}.
Definition set_stdout (out : list string) (w : world) : world :=
  {| clock := clock w; reads := reads w; stdout := out;
     lists := lists w; objects := objects w; Blocks := Blocks w |}.
Definition set_lists (ls : list (list Transaction)) (w : world) : world :=
  {| clock := clock w; reads := reads w; stdout := stdout w;
     lists := ls; objects := objects w; Blocks := Blocks w |}.
Definition set_objects (bs : list Block) (w : world) : world :=
  {| clock := clock w; reads := reads w; stdout := stdout w;
     lists := lists w; objects := bs; Blocks := Blocks w |}.
Definition set_Blocks (rows : list (Z * string)) (w : world) : world :=
  {| clock := clock w; reads := reads w; stdout := stdout w;
     lists := lists w; objects := objects w; Blocks := rows |}.

Definition time_time : M spec_float :=
  fun w => Ok (clock w (reads w)) (set_reads (S (reads w)) w).

Definition print (line : string) : M unit :=
  fun w => Ok tt (set_stdout (stdout w ++ [line]) w).

Definition get_list (r : ref) : M (list Transaction) :=
  fun w => of_option Dangling (nth_error (lists w) r) w.

Definition put_list (r : ref) (l : list Transaction) : M unit :=
  fun w => Ok tt (set_lists (set_nth r l (lists w)) w).

Definition new_list (l : list Transaction) : M ref :=
  fun w => Ok (length (lists w)) (set_lists (lists w ++ [l]) w).

Definition get_block (r : ref) : M Block :=
  fun w => of_option Dangling (nth_error (objects w) r) w.

Definition put_block (r : ref) (b : Block) : M unit :=
  fun w => Ok tt (set_objects (set_nth r b (objects w)) w).

Definition new_block (b : Block) : M ref :=
  fun w => Ok (length (objects w)) (set_objects (objects w ++ [b]) w).

(** The table [Blocks] behind [db_con]: two columns and no constraint. A
    row inserted comes after the rows that are there, and [SELECT * from
    Blocks] gives the rows in that order. *)
Definition append_row (row : Z * string) : M unit :=
  fun w => Ok tt (set_Blocks (Blocks w ++ [row]) w).

Definition select_rows : M (list (Z * string)) := fun w => Ok (Blocks w) w.

(** ** [json.loads]: the scanner of the standard decoder *)

Inductive parsed (A : Type) :=
| POk (a : A) (rest : string)
| PErr (e : exn).
Arguments POk {A} a rest.
Arguments PErr {A} e.

Definition is_ws (c : ascii) : bool :=
  let n := N_of_ascii c in ((n =? 32) || (n =? 9) || (n =? 10) || (n =? 13))%N.

Fixpoint skip_ws (s : string) : string :=
  match s with
  | String c s' => if is_ws c then skip_ws s' else s
  | EmptyString => s
  end.

Definition is_digit (c : ascii) : bool :=
  let n := N_of_ascii c in ((48 <=? n) && (n <=? 57))%N.

Definition hex_val (c : ascii) : option N :=
  let n := N_of_ascii c in
  if ((48 <=? n) && (n <=? 57))%N then Some (n - 48)%N
  else if ((97 <=? n) && (n <=? 102))%N then Some (n - 87)%N
  else if ((65 <=? n) && (n <=? 70))%N then Some (n - 55)%N
  else None.

(** The character a backslash escape stands for. *)
Definition unescape (c : ascii) : option ascii :=
  let n := N_of_ascii c in
  if (n =? 34)%N then Some dq
  else if (n =? 92)%N then Some "\"%char
  else if (n =? 47)%N then Some "/"%char
  else if (n =? 98)%N then Some "008"%char
  else if (n =? 102)%N then Some "012"%char
  else if (n =? 110)%N then Some "010"%char
  else if (n =? 114)%N then Some "013"%char
  else if (n =? 116)%N then Some "009"%char
  else None.

(** [scanstring], after the opening quote, in strict mode. *)
Fixpoint scanstring (s : string) : parsed string :=
  match s with
  | EmptyString => PErr JSONDecodeError
  | String c s' =>
      if (N_of_ascii c =? 34)%N then POk "" s'
      else if (N_of_ascii c =? 92)%N then
        match s' with
        | String "u" (String h1 (String h2 (String h3 (String h4 s'')))) =>
            match hex_val h1, hex_val h2, hex_val h3, hex_val h4 with
            | Some a, Some b, Some c', Some d =>
                let n := (((a * 16 + b) * 16 + c') * 16 + d)%N in
                if (n <? 256)%N then
                  match scanstring s'' with
                  | POk t rest => POk (String (ascii_of_N n) t) rest
                  | PErr e => PErr e
                  end
                else PErr Unmodelled
            | _, _, _, _ => PErr JSONDecodeError
            end
        | String "u" _ => PErr JSONDecodeError
        | String e s'' =>
            match unescape e with
            | Some ch =>
                match scanstring s'' with
                | POk t rest => POk (String ch t) rest
                | PErr e => PErr e
                end
            | None => PErr JSONDecodeError
            end
        | EmptyString => PErr JSONDecodeError
        end
      else if (N_of_ascii c <? 32)%N then PErr JSONDecodeError
      else match scanstring s' with
           | POk t rest => POk (String c t) rest
           | PErr e => PErr e
           end
  end.

(** The longest run of digits at the head of a string. *)
Fixpoint span_digits (s : string) : string * string :=
  match s with
  | String c s' =>
      if is_digit c then let (d, r) := span_digits s' in (String c d, r) else ("", s)
  | EmptyString => ("", s)
  end.

(** The three groups of the number pattern, each with the text after it:
    an integer part (an optional minus, then a lone zero or a run of digits
    that starts with a non-zero one), a fraction (a dot and digits) and an
    exponent (e or E, an optional sign, digits). *)
Definition match_integer (s : string) : option (string * string) :=
  let (sign, s1) := match s with
                    | String "-" s' => ("-", s')
                    | _ => ("", s)
                    end in
  match s1 with
  | String "0" s2 => Some ((sign ++ "0")%string, s2)
  | String c _ =>
      if is_digit c then let (d, r) := span_digits s1 in Some ((sign ++ d)%string, r) else None
  | EmptyString => None
  end.

Definition match_frac (s : string) : string * string :=
  match s with
  | String "." s' =>
      match span_digits s' with
      | (EmptyString, _) => ("", s)
      | (d, r) => (String "." d, r)
      end
  | _ => ("", s)
  end.

Definition match_exp (s : string) : string * string :=
  match s with
  | String e s' =>
      if (Ascii.eqb e "e" || Ascii.eqb e "E")%bool then
        let (sign, s1) := match s' with
                          | String "-" s2 => ("-", s2)
                          | String "+" s2 => ("+", s2)
                          | _ => ("", s')
                          end in
        match span_digits s1 with
        | (EmptyString, _) => ("", s)
        | (d, r) => (String e (sign ++ d)%string, r)
        end
      else ("", s)
  | EmptyString => ("", s)
  end.

(** [s] without its prefix [p], when it starts with it. *)
Fixpoint strip (p s : string) : option string :=
  match p, s with
  | EmptyString, _ => Some s
  | String a p', String b s' => if Ascii.eqb a b then strip p' s' else None
  | String _ _, EmptyString => None
  end.

(** [int(text)] on the text of an integer part. *)
Definition int_of_text (t : string) : Z :=
  match DecimalString.NilZero.int_of_string t with
  | Some d => Z.of_int d
  | None => 0
  end.

(** [dict[k] = v]: a key already there keeps its place. *)
Fixpoint dict_setitem {A : Type} (k : string) (v : A) (d : list (string * A))
  : list (string * A) :=
  match d with
  | [] => [(k, v)]
  | (k', v') :: d' =>
      if (k =? k')%string then (k, v) :: d' else (k', v') :: dict_setitem k v d'
  end.

(** What can follow a value inside a list or a dict, or end the text. *)
Definition closed (rest : string) : bool :=
  match rest with
  | EmptyString => true
  | String c _ => (Ascii.eqb c "," || Ascii.eqb c "]" || Ascii.eqb c "}")%bool
  end.

(** A text that starts neither with a blank nor with a closing bracket. *)
Definition head_ok (s : string) : bool :=
  match s with
  | EmptyString => false
  | String c _ => negb (is_ws c) && negb (Ascii.eqb c "]")
  end.

(** The calls the scanner makes on the text of a value. *)
Fixpoint size (j : json) : nat :=
  match j with
  | JAtom _ => 1
  | JList l => S (fold_right (fun e n => S (size e + n)) 0 l)
  | JDict d => S (fold_right (fun kv n => S (size (snd kv) + n)) 0 d)
  end%nat.

Definition arr_size (l : list json) : nat :=
  fold_right (fun e n => S (size e + n)) 0%nat l.

Definition obj_size (d : list (string * json)) : nat :=
  fold_right (fun kv n => S (size (snd kv) + n)) 0%nat d.

(** The value with the items of every dict in the order of their keys:
    what [json.loads] reads back from [json.dumps(_, sort_keys=True)]. *)
Fixpoint canon (j : json) : json :=
  match j with
  | JAtom a => JAtom a
  | JList l => JList (map canon l)
  | JDict d => JDict (sort_items (map (fun kv => (fst kv, canon (snd kv))) d))
  end.

Section Ledger.

(** [float.__repr__] of a finite float and [float] of the text of a
    number, the interpreter's. *)
Variable float_repr : spec_float -> string.
Variable float_of_string : string -> spec_float.

Definition atom_dumps (a : atom) : string :=
  match a with
  | ANone => "null"
  | ABool true => "true"
  | ABool false => "false"
  | AInt z => int_str z
  | AFloat S754_nan => "NaN"
  | AFloat (S754_infinity false) => "Infinity"
  | AFloat (S754_infinity true) => "-Infinity"
  | AFloat f => float_repr f
  | AStr s => quote s
  end.

Definition item_dumps (kv : string * string) : string :=
  quote (fst kv) ++ ": " ++ snd kv.

(** The values of a [dict] are written first and the items sorted after,
    which gives the text of sorting first: the order looks at keys only. *)
Fixpoint json_dumps (j : json) : string :=
  match j with
  | JAtom a => atom_dumps a
  | JList l => "[" ++ join ", " (map json_dumps l) ++ "]"
  | JDict d =>
      "{" ++ join ", " (map item_dumps
                          (sort_items (map (fun kv => (fst kv, json_dumps (snd kv))) d)))
          ++ "}"
  end.

Definition render (kv : string * json) : string * string :=
  (fst kv, json_dumps (snd kv)).

(** A scalar at the head of the text, in the order the scanner tries them. *)
Definition scan_atom (s : string) : parsed atom :=
  match strip "null" s with
  | Some r => POk ANone r
  | None =>
  match strip "true" s with
  | Some r => POk (ABool true) r
  | None =>
  match strip "false" s with
  | Some r => POk (ABool false) r
  | None =>
  match match_integer s with
  | Some (i, r1) =>
      let (f, r2) := match_frac r1 in
      let (e, r3) := match_exp r2 in
      match f, e with
      | EmptyString, EmptyString => POk (AInt (int_of_text i)) r3
      | _, _ => POk (AFloat (float_of_string (i ++ f ++ e))) r3
      end
  | None =>
  match strip "NaN" s with
  | Some r => POk (AFloat S754_nan) r
  | None =>
  match strip "Infinity" s with
  | Some r => POk (AFloat (S754_infinity false)) r
  | None =>
  match strip "-Infinity" s with
  | Some r => POk (AFloat (S754_infinity true)) r
  | None => PErr JSONDecodeError
  end end end end end end end.

(** [scan_once], [JSONArray] (after the bracket and the blanks) and
    [JSONObject] (after the quote that opens a key). Every call consumes a
    character: with the length of the text as fuel the first case of each
    is not reached. *)
Fixpoint scan_once (fuel : nat) (s : string) {struct fuel} : parsed json :=
  match fuel with
  | O => PErr Unmodelled
  | S fuel' =>
      match s with
      | EmptyString => PErr JSONDecodeError
      | String c s' =>
          if Ascii.eqb c dq then
            match scanstring s' with
            | POk t r => POk (JAtom (AStr t)) r
            | PErr e => PErr e
            end
          else if Ascii.eqb c "{" then
            match skip_ws s' with
            | String c1 s1 =>
                if Ascii.eqb c1 "}" then POk (JDict []) s1
                else if Ascii.eqb c1 dq then JSONObject fuel' s1 []
                else PErr JSONDecodeError
            | EmptyString => PErr JSONDecodeError
            end
          else if Ascii.eqb c "[" then
            match skip_ws s' with
            | String c1 s1 =>
                if Ascii.eqb c1 "]" then POk (JList []) s1
                else match JSONArray fuel' (String c1 s1) with
                     | POk vs r => POk (JList vs) r
                     | PErr e => PErr e
                     end
            | EmptyString => PErr JSONDecodeError
            end
          else
            match scan_atom s with
            | POk a r => POk (JAtom a) r
            | PErr e => PErr e
            end
      end
  end
with JSONArray (fuel : nat) (s : string) {struct fuel} : parsed (list json) :=
  match fuel with
  | O => PErr Unmodelled
  | S fuel' =>
      match scan_once fuel' s with
      | PErr e => PErr e
      | POk v r =>
          match skip_ws r with
          | String c r' =>
              if Ascii.eqb c "]" then POk [v] r'
              else if Ascii.eqb c "," then
                match JSONArray fuel' (skip_ws r') with
                | POk vs r'' => POk (v :: vs) r''
                | PErr e => PErr e
                end
              else PErr JSONDecodeError
          | EmptyString => PErr JSONDecodeError
          end
      end
  end
with JSONObject (fuel : nat) (s : string) (pairs : list (string * json)) {struct fuel}
  : parsed json :=
  match fuel with
  | O => PErr Unmodelled
  | S fuel' =>
      match scanstring s with
      | PErr e => PErr e
      | POk key r =>
          match skip_ws r with
          | String ":" r1 =>
              match scan_once fuel' (skip_ws r1) with
              | PErr e => PErr e
              | POk v r2 =>
                  let pairs' := dict_setitem key v pairs in
                  match skip_ws r2 with
                  | String c r3 =>
                      if Ascii.eqb c "}" then POk (JDict pairs') r3
                      else if Ascii.eqb c "," then
                        match skip_ws r3 with
                        | String q r4 =>
                            if Ascii.eqb q dq then JSONObject fuel' r4 pairs'
                            else PErr JSONDecodeError
                        | EmptyString => PErr JSONDecodeError
                        end
                      else PErr JSONDecodeError
                  | EmptyString => PErr JSONDecodeError
                  end
              end
          | _ => PErr JSONDecodeError
          end
      end
  end.

Definition json_loads (s : string) : M json :=
  match scan_once (S (String.length s)) (skip_ws s) with
  | POk v r =>
      match skip_ws r with
      | EmptyString => ret v
      | String _ _ => raise JSONDecodeError
      end
  | PErr e => raise e
  end.

(** [json.dumps] without [sort_keys]: the items in the order of the dict. *)
Fixpoint json_text (j : json) : string :=
  match j with
  | JAtom a => atom_dumps a
  | JList l => "[" ++ join ", " (map json_text l) ++ "]"
  | JDict d =>
      "{" ++ join ", " (map (fun kv => item_dumps (fst kv, json_text (snd kv))) d) ++ "}"
  end.

(** The text after the first element of a list, and after the value of
    the first item of a dict. *)
Fixpoint arr_text (l : list json) (rest : string) : string :=
  match l with
  | [] => String "]" rest
  | e :: l' => ", " ++ json_text e ++ arr_text l' rest
  end.

Fixpoint obj_text (d : list (string * json)) (rest : string) : string :=
  match d with
  | [] => String "}" rest
  | kv :: d' =>
      ", " ++ String dq (escape (fst kv)
                ++ String dq (": " ++ json_text (snd kv) ++ obj_text d' rest))
  end.

(** The contract of [float.__repr__] with the decoder: the text of a
    finite float, wherever a value can stand, is read back as that float. *)
Definition float_text_ok (f : spec_float) : Prop :=
  forall fuel rest, closed rest = true ->
    scan_once (S fuel) (float_repr f ++ rest) = POk (JAtom (AFloat f)) rest.

Definition atom_ok (a : atom) : Prop :=
  match a with
  | AFloat (S754_zero s) => float_text_ok (S754_zero s)
  | AFloat (S754_finite s m e) => float_text_ok (S754_finite s m e)
  | _ => True
  end.

(** A value as Python builds it (the keys of a dict are distinct) whose
    floats satisfy the contract. *)
Unset Elimination Schemes.
Inductive json_ok : json -> Prop :=
| ok_atom (a : atom) : atom_ok a -> json_ok (JAtom a)
| ok_list (l : list json) : Forall json_ok l -> json_ok (JList l)
| ok_dict (d : list (string * json)) :
    NoDup (map fst d) -> Forall (fun kv => json_ok (snd kv)) d -> json_ok (JDict d).
Set Elimination Schemes.

Definition scans (v : json) : Prop :=
  forall fuel rest, (size v <= fuel)%nat -> closed rest = true ->
    scan_once fuel (json_text v ++ rest) = POk v rest.

Definition MINING_COST : Z := 1.

Definition get_hash (dict_data : json) : M string :=
  let data := json_dumps dict_data in
  print data ;;
  ret (SHA256.hexdigest (encode_utf8 data)).

(** *** Amount *)

Definition Amount_eq (self other : Amount) : bool :=
  py_eq (uuid self) (uuid other) && py_eq (amount self) (amount other).

Definition Amount_todict (self : Amount) : json :=
  JDict [("uuid", JAtom (uuid self)); ("amount", JAtom (amount self))].

Definition scalar (j : json) : M atom :=
  match j with JAtom a => ret a | _ => raise Unmodelled end.

Definition getitem (d : json) (k : string) : M json :=
  match d with
  | JDict items => of_option KeyError (lookup k items)
  | _ => raise TypeError
  end.

Definition elements (j : json) : M (list json) :=
  match j with JList l => ret l | _ => raise TypeError end.

(** [cls] called with the items of [d] as keyword arguments: the keys are
    the two parameters, no more and no less. *)
Definition Amount_fromdict (d : json) : M Amount :=
  match d with
  | JDict items =>
      if forallb (fun kv => (fst kv =? "uuid")%string || (fst kv =? "amount")%string) items
      then u <- of_option TypeError (lookup "uuid" items) ;;
           a <- of_option TypeError (lookup "amount" items) ;;
           u' <- scalar u ;;
           a' <- scalar a ;;
           ret {| uuid := u'; amount := a' |}
      else raise TypeError
  | _ => raise TypeError
  end.

(** *** Transaction *)

Definition Transaction_init (inputs outputs : list Amount) (timestamp : atom)
  : M Transaction :=
  ts <- (if truthy timestamp then ret timestamp
         else t <- time_time ;; ret (AFloat t)) ;;
  ret {| inputs := inputs; outputs := outputs; timestamp := ts |}.

(** [==] on two lists that share no element. *)
Fixpoint list_eq {A : Type} (eq : A -> A -> bool) (l1 l2 : list A) : bool :=
  match l1, l2 with
  | [], [] => true
  | x :: l1', y :: l2' => eq x y && list_eq eq l1' l2'
  | _, _ => false
  end.

Definition Transaction_eq (self other : Transaction) : bool :=
  list_eq Amount_eq (inputs self) (inputs other)
  && list_eq Amount_eq (outputs self) (outputs other)
  && py_eq (timestamp self) (timestamp other).

Definition Transaction_todict (self : Transaction) : json :=
  JDict [("inputs", JList (map Amount_todict (inputs self)));
         ("outputs", JList (map Amount_todict (outputs self)));
         ("timestamp", JAtom (timestamp self))].

Definition Transaction_fromdict (d : json) : M Transaction :=
  ts <- (j <- getitem d "timestamp" ;; scalar j) ;;
  inputs <- (j <- getitem d "inputs" ;; l <- elements j ;; mapM Amount_fromdict l) ;;
  outputs <- (j <- getitem d "outputs" ;; l <- elements j ;; mapM Amount_fromdict l) ;;
  Transaction_init inputs outputs ts.

(** *** Block *)

Definition Block_init (txns : ref) (prev_hash : atom) (difficulty : atom) : M ref :=
  new_block {| prev_hash := prev_hash; txns := txns; nonce := ANone;
               difficulty := difficulty |}.

Definition Block_eq (self other : ref) : M bool :=
  b1 <- get_block self ;;
  b2 <- get_block other ;;
  if py_eq (prev_hash b1) (prev_hash b2)
  then l1 <- get_list (txns b1) ;;
       l2 <- get_list (txns b2) ;;
       ret (list_eq Transaction_eq l1 l2)
  else ret false.

Definition Block_todict (self : ref) (nonce_arg : atom) : M json :=
  b <- get_block self ;;
  let nonce' := match nonce_arg with ANone => nonce b | _ => nonce_arg end in
  l <- get_list (txns b) ;;
  let body := JDict [("txns", JList (map Transaction_todict l))] in
  body_hash <- get_hash body ;;
  ret (JDict [("header", JDict [("prev_hash", JAtom (prev_hash b));
                                ("body_hash", JAtom (AStr body_hash));
                                ("difficulty", JAtom (difficulty b));
                                ("nonce", JAtom nonce')]);
              ("body", body)]).

(** What [Block.todict] returns on a block with fields [b] and
    transactions [l], and the digest of a value. *)
Definition body_dict (l : list Transaction) : json :=
  JDict [("txns", JList (map Transaction_todict l))].

Definition hash_text (j : json) : string :=
  SHA256.hexdigest (encode_utf8 (json_dumps j)).

Definition block_dict (b : Block) (l : list Transaction) (nonce_arg : atom) : json :=
  JDict [("header", JDict [("prev_hash", JAtom (prev_hash b));
                           ("body_hash", JAtom (AStr (hash_text (body_dict l))));
                           ("difficulty", JAtom (difficulty b));
                           ("nonce", JAtom match nonce_arg with
                                           | ANone => nonce b
                                           | _ => nonce_arg
                                           end)]);
         ("body", body_dict l)].

Definition Block_dumps (self : ref) : M string :=
  data <- Block_todict self ANone ;;
  ret (json_dumps data).

Definition Block_get_hash (self : ref) (nonce : atom) : M string :=
  d <- Block_todict self nonce ;;
  get_hash d.

Definition Block_fromdict (d : json) : M ref :=
  prev_hash <- (h <- getitem d "header" ;; j <- getitem h "prev_hash" ;; scalar j) ;;
  difficulty <- (h <- getitem d "header" ;; j <- getitem h "difficulty" ;; scalar j) ;;
  txns <- (b <- getitem d "body" ;; j <- getitem b "txns" ;; l <- elements j ;;
           mapM Transaction_fromdict l) ;;
  r <- new_list txns ;;
  Block_init r prev_hash difficulty.

(** *** Persistence *)

(** ["INSERT INTO Blocks VALUES(0, '{}')".format(data)]: the text is put
    between two single quotes as it is. *)
Definition insert_statement (data : string) : string :=
  "INSERT INTO Blocks VALUES(0, '" ++ data ++ "')".

(** A string literal of SQL, read from after its opening quote: the text
    up to the quote that closes it, where two quotes in a row stand for one
    quote of the text, and what follows the literal. There is no result when
    the literal is not closed. *)
Fixpoint sql_literal (s : string) : option (string * string) :=
  match s with
  | EmptyString => None
  | String c s' =>
      if Ascii.eqb c "'" then
        match s' with
        | String c' s'' =>
            if Ascii.eqb c' "'" then
              match sql_literal s'' with
              | Some (t, r) => Some (String "'" t, r)
              | None => None
              end
            else Some ("", s')
        | EmptyString => Some ("", s')
        end
      else match sql_literal s' with
           | Some (t, r) => Some (String c t, r)
           | None => None
           end
  end.

(** [cur.execute(sql)] on a statement built by [insert_statement]: the
    database reads the literal and inserts the row [(0, text)] when the list
    of values ends right after it; a literal that is not closed is an error
    of the database. A statement that goes on after the literal, which takes
    a quote inside the text given, is left out of the model. *)
Definition execute (sql : string) : M unit :=
  match strip "INSERT INTO Blocks VALUES(0, '" sql with
  | Some rest =>
      match sql_literal rest with
      | Some (text, after) =>
          if (after =? ")")%string then append_row (0, text) else raise Unmodelled
      | None => raise OperationalError
      end
  | None => raise Unmodelled
  end.

(** A text without a single quote. *)
Fixpoint quote_free (s : string) : bool :=
  match s with
  | EmptyString => true
  | String c s' => negb (Ascii.eqb c "'") && quote_free s'
  end.

Fixpoint to_db (blocks : list ref) : M unit :=
  match blocks with
  | [] => ret tt
  | b :: rest => data <- Block_dumps b ;; execute (insert_statement data) ;; to_db rest
  end.

Definition from_db : M (list ref) :=
  rows <- select_rows ;;
  mapM (fun row => d <- json_loads (snd row) ;; Block_fromdict d) rows.

(** *** Node *)

Definition Node_init (uuid : atom) : Node := {| Node_uuid := uuid; blocks := [] |}.

Definition zeros (difficulty : Z) : string :=
  string_of_list_ascii (repeat "0"%char (Z.to_nat difficulty)).

(** The [while True] search, [fuel] rounds of it. *)
Fixpoint mine (fuel : nat) (self : Node) (block : ref) (difficulty : Z) (nonce : Z)
  : M (Node * (ref * string)) :=
  match fuel with
  | O => fun _ => Running
  | S fuel' =>
      hash <- Block_get_hash block (AInt nonce) ;;
      if String.prefix (zeros difficulty) hash
      then b <- get_block block ;;
           put_block block (set_nonce b (AInt nonce)) ;;
           ret ({| Node_uuid := Node_uuid self; blocks := blocks self ++ [block] |},
                (block, hash))
      else mine fuel' self block difficulty (nonce + 1)
  end.

Definition Node_process_txns (fuel : nat) (self : Node) (txns : ref)
           (difficulty : Z) (timestamp : atom) : M (Node * (ref * string)) :=
  coinbase <- Transaction_init [] [{| uuid := Node_uuid self; amount := AInt MINING_COST |}]
                               timestamp ;;
  l <- get_list txns ;;
  put_list txns (coinbase :: l) ;;
  prev_hash <- match rev (blocks self) with
               | last :: _ => b <- get_block last ;; ret (prev_hash b)
               | [] => ret (AStr "")
               end ;;
  block <- Block_init txns prev_hash (AInt difficulty) ;;
  mine fuel self block difficulty 0.

(** The transaction [process_txns] puts first, and the link it gives the
    new block, as functions of the state it is called in. *)
Definition coinbase_of (self : Node) (ts : atom) (w : world) : Transaction :=
  {| inputs := [];
     outputs := [{| uuid := Node_uuid self; amount := AInt MINING_COST |}];
     timestamp := if truthy ts then ts else AFloat (clock w (reads w)) |}.

Definition link_of (self : Node) (w : world) : option atom :=
  match rev (blocks self) with
  | last :: _ => option_map prev_hash (nth_error (objects w) last)
  | [] => Some (AStr "")
  end.

(** The candidate block of a call, its transactions, and whether a nonce
    passes the test of the search. *)
Definition candidate (txns : ref) (prev : atom) (d : Z) : Block :=
  {| prev_hash := prev; txns := txns; nonce := ANone; difficulty := AInt d |}.

Definition passes (b : Block) (l : list Transaction) (d : Z) (k : Z) : bool :=
  String.prefix (zeros d) (hash_text (block_dict b l (AInt k))).

(** The call has a list to extend, a link to give, and a nonce that passes:
    what it takes for the search to end. *)
Definition mineable (self : Node) (txns : ref) (d : Z) (ts : atom) (w : world) : Prop :=
  exists (l : list Transaction) (prev : atom) (k : Z),
    nth_error (lists w) txns = Some l /\ link_of self w = Some prev /\ 0 <= k /\
    passes (candidate txns prev d) (coinbase_of self ts w :: l) d k = true.

Definition validate_hash (block : ref) (hash : atom) : M bool :=
  b <- get_block block ;;
  h <- Block_get_hash block (nonce b) ;;
  ret (py_eq (AStr h) hash).

(** *** Chains grown by mining *)

(** A block of the store that meets its difficulty with its nonce. *)
Definition solved (w : world) (r : ref) : Prop :=
  exists (b : Block) (l : list Transaction) (d k : Z),
    nth_error (objects w) r = Some b /\ nth_error (lists w) (txns b) = Some l /\
    difficulty b = AInt d /\ nonce b = AInt k /\ passes b l d k = true.

(** Some block of the chain holds the list [batch]. *)
Definition holds (w : world) (chain : list ref) (batch : ref) : Prop :=
  exists (r : ref) (b : Block),
    In r chain /\ nth_error (objects w) r = Some b /\ txns b = batch.

(** The state [w'] has the blocks of the chain, and the lists they hold, as
    [w] has them. *)
Definition keeps (chain : list ref) (w w' : world) : Prop :=
  forall (r : ref) (b : Block),
    In r chain -> nth_error (objects w) r = Some b ->
    nth_error (objects w') r = Some b /\
    nth_error (lists w') (txns b) = nth_error (lists w) (txns b).

(** A node and a state reached from [Node(uuid)] by calls of
    [process_txns], each on a list that no block of the chain holds, with
    anything in between that keeps the blocks of the chain and their lists. *)
Inductive grown (u : atom) : Node -> world -> Prop :=
| grown_start (w : world) : grown u (Node_init u) w
| grown_other (n : Node) (w w' : world) :
    grown u n w -> keeps (blocks n) w w' -> grown u n w'
| grown_mined (n n' : Node) (w w' : world) (fuel : nat) (batch : ref) (d : Z)
              (ts : atom) (blk : ref) (h : string) :
    grown u n w ->
    ~ holds w (blocks n) batch ->
    Node_process_txns fuel n batch d ts w = Ok (n', (blk, h)) w' ->
    grown u n' w'.

(** *** The search, its output and its history *)






(** *** What a chain must be made of to be stored and loaded back

    No NaN, truthy timestamps, floats that [float.__repr__] writes as the
    decoder reads them, and no single quote in the text [Block.dumps] writes
    for a block, which [to_db] puts between single quotes. *)

Definition Amount_ok (a : Amount) : Prop :=
  nan_free a = true /\ atom_ok (uuid a)
  /\ atom_ok (amount a).

Definition Transaction_ok (t : Transaction) : Prop :=
  Forall Amount_ok (inputs t) /\ Forall Amount_ok (outputs t) /\
  truthy (timestamp t) = true /\ is_nan (timestamp t) = false /\
  atom_ok (timestamp t).

Definition Block_ok (w : world) (r : ref) : Prop :=
  exists (b : Block) (l : list Transaction),
    nth_error (objects w) r = Some b /\ nth_error (lists w) (txns b) = Some l /\
    is_nan (prev_hash b) = false /\
    atom_ok (prev_hash b) /\
    atom_ok (difficulty b) /\
    atom_ok (nonce b) /\
    Forall Transaction_ok l /\
    quote_free (json_dumps (block_dict b l ANone)) = true.

(** A block with its fields and its transactions in a state, the row
    [to_db] writes for it, and what [from_db] rebuilds from the row. *)
Definition has (w : world) (r : ref) (spec : Block * list Transaction) : Prop :=
  nth_error (objects w) r = Some (fst spec)
  /\ nth_error (lists w) (txns (fst spec)) = Some (snd spec).

Definition spec_ok (spec : Block * list Transaction) : Prop :=
  is_nan (prev_hash (fst spec)) = false /\
  atom_ok (prev_hash (fst spec)) /\
  atom_ok (difficulty (fst spec)) /\
  atom_ok (nonce (fst spec)) /\
  Forall Transaction_ok (snd spec) /\
  quote_free (json_dumps (block_dict (fst spec) (snd spec) ANone)) = true.

Definition row_of (spec : Block * list Transaction) : Z * string :=
  (0, json_dumps (block_dict (fst spec) (snd spec) ANone)).

Definition rebuilt_as (w : world) (r : ref) (spec : Block * list Transaction) : Prop :=
  exists b : Block,
    nth_error (objects w) r = Some b /\
    prev_hash b = prev_hash (fst spec) /\ difficulty b = difficulty (fst spec) /\
    nonce b = ANone /\ nth_error (lists w) (txns b) = Some (snd spec).

Definition preserved (w w' : world) : Prop :=
  (forall i x, nth_error (objects w) i = Some x -> nth_error (objects w') i = Some x) /\
  (forall i x, nth_error (lists w) i = Some x -> nth_error (lists w') i = Some x).

(** The state after [Block.fromdict] rebuilt a block: one more list, one
    more block. *)
Definition rebuilt (b : Block) (l : list Transaction) (w : world) : world :=
  set_objects (objects w ++ [{| prev_hash := prev_hash b; txns := length (lists w);
                                nonce := ANone; difficulty := difficulty b |}])
              (set_lists (lists w ++ [l]) w).

(** The state after a digest: two more lines printed. *)
Definition hashed (b : Block) (l : list Transaction) (n : atom) (w : world) : world :=
  set_stdout (stdout w ++ [json_dumps (body_dict l)]
                       ++ [json_dumps (block_dict b l n)]) w.

End Ledger.

(** ** The values of the examples *)

(** 1.5 and 1700000005.5 as binary64 values. *)
Definition one_and_a_half : spec_float := S754_finite false 6755399441055744 (-52).
Definition example_time : spec_float := S754_finite false 7130316823068672 (-22).

(** [float.__repr__] and [float] on the two floats of the examples. *)
Definition example_repr (f : spec_float) : string :=
  match f with
  | S754_finite false 6755399441055744 (-52) => "1.5"
  | S754_finite false 7130316823068672 (-22) => "1700000005.5"
  | _ => ""
  end.

Definition example_float (s : string) : spec_float :=
  if (s =? "1.5")%string then one_and_a_half
  else if (s =? "1700000005.5")%string then example_time
  else S754_nan.

Definition matt : Node := Node_init (AStr "matt").

Definition payment : Transaction :=
  {| inputs := [{| uuid := AStr "matt"; amount := AInt 1 |}];
     outputs := [{| uuid := AStr "fred"; amount := AFloat one_and_a_half |}];
     timestamp := AFloat example_time |}.

(** A state with an empty list and a list of one payment, before any mining. *)
Definition example_world : world :=
  {| clock := fun _ => example_time; reads := 0%nat; stdout := [];
     lists := [[]; [payment]]; objects := []; Blocks := [] |}.

Definition coinbase_at (ts : atom) : Transaction :=
  {| inputs := []; outputs := [{| uuid := AStr "matt"; amount := AInt 1 |}];
     timestamp := ts |}.

(** The state after [matt] mined the two lists, and his chain. *)
Definition mined_world : world :=
  {| clock := fun _ => example_time; reads := 1%nat; stdout := [];
     lists := [[coinbase_at (AFloat example_time)]; [coinbase_at (AInt 2); payment]];
     objects := [{| prev_hash := AStr ""; txns := 0%nat; nonce := AInt 1; difficulty := AInt 1 |};
                 {| prev_hash := AStr ""; txns := 1%nat; nonce := AInt 1; difficulty := AInt 1 |}];
     Blocks := [] |}.

Definition mined_chain : list ref := [0%nat; 1%nat].

(** A block whose only transaction pays NaN. *)
Definition nan_amount : Amount := {| uuid := AStr "matt"; amount := AFloat S754_nan |}.

Definition nan_world : world :=
  {| clock := fun _ => example_time; reads := 0%nat; stdout := [];
     lists := [[{| inputs := []; outputs := [nan_amount]; timestamp := AInt 1 |}]];
     objects := [{| prev_hash := AStr ""; txns := 0%nat; nonce := AInt 0; difficulty := AInt 0 |}];
     Blocks := [] |}.

(** A block whose only transaction pays a uuid with two single quotes in
    a row. *)
Definition quoted_amount : Amount := {| uuid := AStr "a''b"; amount := AInt 1 |}.

Definition quote_world : world :=
  {| clock := fun _ => example_time; reads := 0%nat; stdout := [];
     lists := [[{| inputs := []; outputs := [quoted_amount]; timestamp := AInt 1 |}]];
     objects := [{| prev_hash := AStr ""; txns := 0%nat; nonce := AInt 0; difficulty := AInt 0 |}];
     Blocks := [] |}.

(** Two values with the same content, their items given in different orders. *)
Definition record_a : json :=
  JDict [("uuid", JAtom (AStr "matt"));
         ("more", JDict [("x", JAtom (AInt 1)); ("y", JList [JAtom ANone])]);
         ("amount", JAtom (AInt 1))].

Definition record_b : json :=
  JDict [("amount", JAtom (AInt 1));
         ("more", JDict [("y", JList [JAtom ANone]); ("x", JAtom (AInt 1))]);
         ("uuid", JAtom (AStr "matt"))].

(** * Properties *)

(** ** The shape of a digest *)

Lemma hex_digit_lower (n : Z) : In (SHA256.hex_digit n) hex_chars.
Proof.
  unfold SHA256.hex_digit, hex_chars.
  destruct n as [|p|p]; simpl; auto 20.
  do 4 (try destruct p as [p|p|]); simpl; auto 20.
Qed.

Lemma hexdigest_length (msg : list Z) : String.length (SHA256.hexdigest msg) = 64%nat.
Proof. unfold SHA256.hexdigest. generalize (SHA256.digest msg). intros st. reflexivity. Qed.

Lemma hexdigest_lower (msg : list Z) (c : ascii) :
  In c (list_ascii_of_string (SHA256.hexdigest msg)) -> In c hex_chars.
Proof.
  unfold SHA256.hexdigest. rewrite list_ascii_of_string_of_list_ascii.
  intros H. apply in_concat in H. destruct H as (ws & Hws & Hc).
  apply in_map_iff in Hws. destruct Hws as (x & <- & _).
  unfold SHA256.hex_word in Hc. apply in_map_iff in Hc. destruct Hc as (i & <- & _).
  apply hex_digit_lower.
Qed.

(** The digests of the standard test messages. *)
Example sha256_empty :
  SHA256.hexdigest (encode_utf8 "")
  = "e3b0c44298fc1c149afbf4c8996fb92427ae41e4649b934ca495991b7852b855".
Proof. vm_compute. reflexivity. Qed.

Example sha256_abc :
  SHA256.hexdigest (encode_utf8 "abc")
  = "ba7816bf8f01cfea414140de5dae2223b00361a396177a9cb410ff61f20015ad".
Proof. vm_compute. reflexivity. Qed.

Example sha256_two_blocks :
  SHA256.hexdigest (encode_utf8 "abcdbcdecdefdefgefghfghighijhijkijkljklmklmnlmnomnopnopq")
  = "248d6a61d20638b8e5c026930c3e6039a33ce45964ff2167f6ecedd419db06c1".
Proof. vm_compute. reflexivity. Qed.

#[global] Opaque SHA256.hexdigest.
Arguments json_dumps : simpl never.
Arguments encode_utf8 : simpl never.

(** ** Sorting the items of a dict *)

Lemma leb_trans (s1 : string) : forall s2 s3,
  String.leb s1 s2 = true -> String.leb s2 s3 = true -> String.leb s1 s3 = true.
Proof.
  unfold String.leb.
  induction s1 as [|c1 s1 IH]; intros [|c2 s2] [|c3 s3]; simpl; auto; try discriminate.
  unfold Ascii.compare.
  destruct (N.compare_spec (N_of_ascii c1) (N_of_ascii c2)) as [E12|L12|G12];
    destruct (N.compare_spec (N_of_ascii c2) (N_of_ascii c3)) as [E23|L23|G23];
    destruct (N.compare_spec (N_of_ascii c1) (N_of_ascii c3)) as [E13|L13|G13];
    try discriminate; auto; try lia.
  apply IH.
Qed.

Lemma insert_item_comm {A : Type} (x y : string * A) (s : list (string * A)) :
  fst x <> fst y ->
  insert_item x (insert_item y s) = insert_item y (insert_item x s).
Proof.
  intros Hne. induction s as [|z s IH]; simpl.
  - destruct (String.leb (fst x) (fst y)) eqn:Hxy, (String.leb (fst y) (fst x)) eqn:Hyx;
      auto.
    + exfalso. apply Hne. now apply String.leb_antisym.
    + destruct (String.leb_total (fst x) (fst y)); congruence.
  - destruct (String.leb (fst y) (fst z)) eqn:Hyz, (String.leb (fst x) (fst z)) eqn:Hxz;
      simpl; rewrite ?Hyz, ?Hxz.
    + destruct (String.leb (fst x) (fst y)) eqn:Hxy, (String.leb (fst y) (fst x)) eqn:Hyx;
        auto.
      * exfalso. apply Hne. now apply String.leb_antisym.
      * destruct (String.leb_total (fst x) (fst y)); congruence.
    + destruct (String.leb (fst x) (fst y)) eqn:Hxy; auto.
      rewrite (leb_trans _ _ _ Hxy Hyz) in Hxz. discriminate.
    + destruct (String.leb (fst y) (fst x)) eqn:Hyx; auto.
      rewrite (leb_trans _ _ _ Hyx Hxz) in Hyz. discriminate.
    + now rewrite IH.
Qed.

Lemma sort_items_perm {A : Type} (l1 l2 : list (string * A)) :
  Permutation l1 l2 -> NoDup (map fst l1) -> sort_items l1 = sort_items l2.
Proof.
  induction 1 as [|x l1 l2 Hp IH|x y l|l1 l2 l3 H12 IH12 H23 IH23]; intros Hnd; simpl.
  - reflexivity.
  - inversion Hnd; subst. now rewrite IH.
  - apply insert_item_comm. inversion Hnd as [|? ? Hin _]; subst.
    intros E. apply Hin. left. auto.
  - rewrite IH12; auto. apply IH23.
    eapply Permutation_NoDup; [|exact Hnd]. now apply Permutation_map.
Qed.

Lemma json_induction (P : json -> Prop) :
  (forall a, P (JAtom a)) ->
  (forall l, Forall P l -> P (JList l)) ->
  (forall d, Forall (fun kv => P (snd kv)) d -> P (JDict d)) ->
  forall j, P j.
Proof.
  intros Ha Hl Hd. fix IH 1. intros [a|l|d].
  - apply Ha.
  - apply Hl. induction l as [|j l IHl]; constructor; [apply IH | exact IHl].
  - apply Hd. induction d as [|kv d IHd]; constructor; [apply IH | exact IHd].
Qed.


(** ** Texts: strings and integers read back *)

Lemma append_assoc (a b c : string) : ((a ++ b) ++ c = a ++ (b ++ c))%string.
Proof. induction a as [|x a IH]; simpl; congruence. Qed.

Lemma length_append (a b : string) :
  String.length (a ++ b) = (String.length a + String.length b)%nat.
Proof. induction a as [|x a IH]; simpl; congruence. Qed.

Lemma scanstring_escape_char (c : ascii) (tail : string) :
  scanstring (escape_char c ++ tail)
  = match scanstring tail with
    | POk t r => POk (String c t) r
    | PErr e => PErr e
    end.
Proof.
  destruct c as [[] [] [] [] [] [] [] []]; reflexivity.
Qed.

Lemma scanstring_escape (s : string) (rest : string) :
  scanstring (escape s ++ String dq rest) = POk s rest.
Proof.
  induction s as [|c s IH]; [reflexivity|].
  cbn [escape]. rewrite append_assoc, scanstring_escape_char, IH. reflexivity.
Qed.

Lemma closed_inv (rest : string) :
  closed rest = true ->
  rest = "" \/ exists r, rest = String "," r \/ rest = String "]" r \/ rest = String "}" r.
Proof.
  destruct rest as [|c r]; [now left|]. cbn [closed]. intros H. right. exists r.
  apply orb_true_iff in H. destruct H as [H|H]; [apply orb_true_iff in H; destruct H as [H|H]|];
    apply Ascii.eqb_eq in H; subst; auto.
Qed.

Ltac closed_cases rest H :=
  destruct (closed_inv rest H) as [->|[? [->|[->| ->]]]].

Lemma span_digits_uint (u : Decimal.uint) (rest : string) :
  closed rest = true ->
  span_digits (NilEmpty.string_of_uint u ++ rest) = (NilEmpty.string_of_uint u, rest).
Proof.
  intros H. induction u; cbn [NilEmpty.string_of_uint append span_digits is_digit];
    try (rewrite IHu; reflexivity).
  closed_cases rest H; reflexivity.
Qed.

Lemma to_uint_head (p : positive) :
  match Pos.to_uint p with Decimal.Nil | Decimal.D0 _ => False | _ => True end.
Proof.
  pose proof (Unsigned.to_uint_nonzero p) as Hnz.
  pose proof (Unsigned.to_uint_nonnil p) as Hnn.
  pose proof (Unsigned.to_of (Pos.to_uint p)) as Hn.
  rewrite Unsigned.of_to in Hn. cbn [N.to_uint] in Hn.
  destruct (Pos.to_uint p) as [|u| | | | | | | | |]; try exact I.
  - now apply Hnn.
  - unfold Decimal.unorm in Hn. rewrite nzhead_D0 in Hn.
    destruct (Decimal.nzhead u) eqn:En; try discriminate Hn.
    + apply Hnz. exact Hn.
    + exact (nzhead_nonzero _ _ En).
Qed.

Lemma int_of_text_int_str (z : Z) : int_of_text (int_str z) = z.
Proof.
  unfold int_of_text, int_str. rewrite NilZero.isi.
  - apply DecimalZ.of_to.
  - destruct z; cbn; try discriminate; intros [= E]; now apply (Unsigned.to_uint_nonnil p).
  - destruct z; cbn; try discriminate; intros [= E]; now apply (Unsigned.to_uint_nonnil p).
Qed.

Lemma match_frac_closed (rest : string) : closed rest = true -> match_frac rest = ("", rest).
Proof. intros H. closed_cases rest H; reflexivity. Qed.

Lemma match_exp_closed (rest : string) : closed rest = true -> match_exp rest = ("", rest).
Proof. intros H. closed_cases rest H; reflexivity. Qed.


Lemma match_integer_digits (c : ascii) (t rest : string) :
  is_digit c = true -> c <> "0"%char ->
  span_digits (String c (t ++ rest)) = (String c t, rest) ->
  match_integer (String c (t ++ rest)) = Some (String c t, rest)
  /\ match_integer (String "-" (String c (t ++ rest))) = Some (String "-" (String c t), rest)
  /\ strip "null" (String c (t ++ rest)) = None
  /\ strip "true" (String c (t ++ rest)) = None
  /\ strip "false" (String c (t ++ rest)) = None
  /\ Ascii.eqb c dq = false /\ Ascii.eqb c "{" = false /\ Ascii.eqb c "[" = false.
Proof.
  intros Hc H0 Hs. unfold match_integer.
  destruct c as [[] [] [] [] [] [] [] []]; try discriminate Hc;
    try (exfalso; apply H0; reflexivity);
    cbv beta iota; rewrite Hs, Hc; repeat split; reflexivity.
Qed.



Section LedgerFacts.

Variable float_repr : spec_float -> string.
Variable float_of_string : string -> spec_float.

(** ** Running the hashing operations *)

Lemma get_hash_run (j : json) (w : world) :
  get_hash float_repr j w
  = Ok (hash_text float_repr j) (set_stdout (stdout w ++ [json_dumps float_repr j]) w).
Proof. unfold get_hash, hash_text, bind, print, ret. reflexivity. Qed.

Lemma Block_todict_run (self : ref) (n : atom) (w : world) (b : Block)
      (l : list Transaction) :
  nth_error (objects w) self = Some b ->
  nth_error (lists w) (txns b) = Some l ->
  Block_todict float_repr self n w
  = Ok (block_dict float_repr b l n)
       (set_stdout (stdout w ++ [json_dumps float_repr (body_dict l)]) w).
Proof.
  intros Hb Hl. unfold Block_todict, bind, get_block, get_list.
  rewrite Hb. unfold of_option, ret. rewrite Hl. rewrite get_hash_run. reflexivity.
Qed.

Lemma Block_get_hash_run (self : ref) (n : atom) (w : world) (b : Block)
      (l : list Transaction) :
  nth_error (objects w) self = Some b ->
  nth_error (lists w) (txns b) = Some l ->
  Block_get_hash float_repr self n w
  = Ok (hash_text float_repr (block_dict float_repr b l n)) (hashed float_repr b l n w).
Proof.
  intros Hb Hl. unfold Block_get_hash, bind.
  rewrite (Block_todict_run self n w b l Hb Hl).
  rewrite get_hash_run. unfold hashed, set_stdout. cbn [stdout clock reads lists objects Blocks].
  rewrite <- app_assoc. reflexivity.
Qed.


(** ** The store *)

Lemma nth_error_set_nth_eq {A : Type} (l : list A) (i : nat) (x : A) :
  (i < length l)%nat -> nth_error (set_nth i x l) i = Some x.
Proof.
  revert i. induction l as [|y l IH]; intros [|i] H; simpl in *; try lia; auto.
  apply IH. lia.
Qed.

Lemma nth_error_set_nth_neq {A : Type} (l : list A) (i j : nat) (x : A) :
  i <> j -> nth_error (set_nth i x l) j = nth_error l j.
Proof.
  revert i j. induction l as [|y l IH]; intros [|i] [|j] H; simpl; auto.
  congruence.
Qed.

Lemma set_nth_last {A : Type} (l : list A) (x y : A) :
  set_nth (length l) y (l ++ [x]) = l ++ [y].
Proof. induction l as [|z l IH]; simpl; congruence. Qed.

Lemma nth_error_last {A : Type} (l : list A) (x : A) :
  nth_error (l ++ [x]) (length l) = Some x.
Proof. induction l as [|z l IH]; simpl; auto. Qed.

Lemma nth_error_old {A : Type} (l : list A) (x y : A) (i : nat) :
  nth_error l i = Some y -> nth_error (l ++ [x]) i = Some y.
Proof.
  intros H. rewrite nth_error_app1; auto. apply nth_error_Some. congruence.
Qed.

(** ** The mining loop *)

Lemma mine_run (fuel : nat) :
  forall (self : Node) (block : ref) (d n : Z) (w w' : world)
         (node' : Node) (blk : ref) (h : string) (b : Block) (l : list Transaction),
  nth_error (objects w) block = Some b ->
  nth_error (lists w) (txns b) = Some l ->
  mine float_repr fuel self block d n w = Ok (node', (blk, h)) w' ->
  exists k, n <= k /\
    h = hash_text float_repr (block_dict float_repr b l (AInt k)) /\
    passes float_repr b l d k = true /\
    blk = block /\
    node' = {| Node_uuid := Node_uuid self; blocks := blocks self ++ [block] |} /\
    objects w' = set_nth block (set_nonce b (AInt k)) (objects w) /\
    lists w' = lists w /\ clock w' = clock w /\ Blocks w' = Blocks w.
Proof.
  induction fuel as [|fuel IH]; intros self block d n w w' node' blk h b l Hb Hl Hrun.
  - discriminate.
  - cbn [mine] in Hrun. unfold bind at 1 in Hrun.
    rewrite (Block_get_hash_run block (AInt n) w b l Hb Hl) in Hrun.
    destruct (String.prefix (zeros d) _) eqn:Hp.
    + unfold bind, get_block, put_block, ret in Hrun.
      cbn [hashed set_stdout objects] in Hrun.
      rewrite Hb in Hrun. cbn in Hrun.
      injection Hrun as <- <- <- <-.
      exists n. repeat split; auto. lia.
    + apply IH with (b := b) (l := l) in Hrun; auto.
      destruct Hrun as (k & Hk & Hrest). exists k. split; [lia|]. exact Hrest.
Qed.

(** The search returns as soon as the fuel reaches a nonce that passes. *)
Lemma mine_finds (fuel : nat) :
  forall (self : Node) (block : ref) (d n k : Z) (w : world) (b : Block)
         (l : list Transaction),
  nth_error (objects w) block = Some b ->
  nth_error (lists w) (txns b) = Some l ->
  n <= k < n + Z.of_nat fuel ->
  passes float_repr b l d k = true ->
  exists r w', mine float_repr fuel self block d n w = Ok r w'.
Proof.
  induction fuel as [|fuel IH]; intros self block d n k w b l Hb Hl Hk Hp.
  - lia.
  - cbn [mine]. unfold bind at 1.
    rewrite (Block_get_hash_run block (AInt n) w b l Hb Hl).
    destruct (String.prefix (zeros d) _) eqn:Hn.
    + unfold bind, get_block, put_block, ret.
      cbn [hashed set_stdout objects]. rewrite Hb. cbn. eauto.
    + assert (n <> k) by (intros ->; unfold passes in Hp; congruence).
      apply IH with (k := k) (b := b) (l := l); auto. lia.
Qed.

(** ** [process_txns], step by step *)

Lemma Transaction_init_run (ins outs : list Amount) (ts : atom) (w : world) :
  exists w1,
    Transaction_init ins outs ts w
    = Ok {| inputs := ins; outputs := outs;
            timestamp := if truthy ts then ts else AFloat (clock w (reads w)) |} w1
    /\ objects w1 = objects w /\ lists w1 = lists w /\ clock w1 = clock w
    /\ Blocks w1 = Blocks w /\ stdout w1 = stdout w
    /\ reads w1 = if truthy ts then reads w else S (reads w).
Proof.
  unfold Transaction_init.
  destruct (truthy ts); eexists; (split; [reflexivity|]); repeat split; auto.
Qed.

Lemma link_run (self : Node) (w : world) :
  match match rev (blocks self) with
        | last :: _ => b <- get_block last ;; ret (prev_hash b)
        | [] => ret (AStr "")
        end w with
  | Ok prev w' => w' = w /\ link_of self w = Some prev
  | Raise _ => link_of self w = None
  | Running => False
  end.
Proof.
  unfold link_of. destruct (rev (blocks self)) as [|last ?]; [split; reflexivity|].
  unfold bind, get_block. destruct (nth_error (objects w) last); cbn; auto.
Qed.

Lemma Node_process_txns_run (fuel : nat) (self : Node) (batch : ref) (d : Z) (ts : atom)
      (w w' : world) (node' : Node) (blk : ref) (h : string) :
  Node_process_txns float_repr fuel self batch d ts w = Ok (node', (blk, h)) w' ->
  exists (l : list Transaction) (prev : atom) (k : Z),
    let b0 := candidate batch prev d in
    let l' := coinbase_of self ts w :: l in
    nth_error (lists w) batch = Some l /\
    link_of self w = Some prev /\
    0 <= k /\
    h = hash_text float_repr (block_dict float_repr b0 l' (AInt k)) /\
    passes float_repr b0 l' d k = true /\
    blk = length (objects w) /\
    node' = {| Node_uuid := Node_uuid self; blocks := blocks self ++ [blk] |} /\
    objects w' = objects w ++ [set_nonce b0 (AInt k)] /\
    lists w' = set_nth batch l' (lists w) /\
    clock w' = clock w /\ Blocks w' = Blocks w.
Proof.
  unfold Node_process_txns. intros Hrun.
  destruct (Transaction_init_run
              [] [{| uuid := Node_uuid self; amount := AInt MINING_COST |}] ts w)
    as (w1 & Hinit & Ho1 & Hl1 & Hc1 & Hb1 & _ & _).
  unfold bind at 1 in Hrun. rewrite Hinit in Hrun.
  fold (coinbase_of self ts w) in Hrun.
  unfold bind at 1 in Hrun. unfold get_list in Hrun. rewrite Hl1 in Hrun.
  destruct (nth_error (lists w) batch) as [l|] eqn:Hl; [|discriminate].
  cbn [of_option ret] in Hrun.
  unfold bind at 1 in Hrun. cbn [put_list] in Hrun.
  unfold bind at 1 in Hrun.
  set (w2 := set_lists _ w1) in Hrun.
  pose proof (link_run self w2) as Hprev.
  match type of Hrun with context [?c w2] => set (step := c) in Hrun, Hprev end.
  destruct (step w2) as [prev w3| |]; [|discriminate|discriminate].
  destruct Hprev as [-> Hlink].
  assert (Hlink' : link_of self w = Some prev).
  { revert Hlink. unfold link_of. cbn [w2 set_lists objects]. now rewrite Ho1. }
  unfold bind at 1, Block_init, new_block in Hrun.
  fold (candidate batch prev d) in Hrun.
  apply mine_run with (b := candidate batch prev d) (l := coinbase_of self ts w :: l)
    in Hrun.
  - destruct Hrun as (k & Hk & Hh & Hp & Hblk & Hnode & Hobj & Hlists & Hclock & HBlocks).
    cbn [w2 set_objects set_lists objects lists clock Blocks] in *.
    exists l, prev, k. cbn zeta.
    rewrite Ho1, Hl1, Hc1, Hb1 in *. rewrite set_nth_last in Hobj.
    subst blk. repeat split; auto.
  - cbn [w2 set_objects set_lists objects]. apply nth_error_last.
  - cbn [w2 set_objects set_lists lists candidate txns]. rewrite Hl1.
    apply nth_error_set_nth_eq. apply nth_error_Some. congruence.
Qed.

Lemma Node_process_txns_returns (self : Node) (batch : ref) (d : Z) (ts : atom)
      (w : world) (l : list Transaction) (prev : atom) (k : Z) :
  nth_error (lists w) batch = Some l ->
  link_of self w = Some prev ->
  0 <= k ->
  passes float_repr (candidate batch prev d) (coinbase_of self ts w :: l) d k = true ->
  exists r w', Node_process_txns float_repr (S (Z.to_nat k)) self batch d ts w = Ok r w'.
Proof.
  intros Hl Hlink Hk Hp. unfold Node_process_txns.
  destruct (Transaction_init_run
              [] [{| uuid := Node_uuid self; amount := AInt MINING_COST |}] ts w)
    as (w1 & Hinit & Ho1 & Hl1 & Hc1 & Hb1 & _ & _).
  unfold bind at 1. rewrite Hinit. fold (coinbase_of self ts w).
  unfold bind at 1. unfold get_list. rewrite Hl1, Hl. cbn [of_option ret].
  unfold bind at 1. cbn [put_list]. unfold bind at 1.
  set (w2 := set_lists _ w1).
  pose proof (link_run self w2) as Hprev.
  assert (Hlink' : link_of self w2 = Some prev).
  { revert Hlink. unfold link_of. cbn [w2 set_lists objects]. now rewrite Ho1. }
  match goal with |- context [?c w2] => set (step := c) in *  end.
  destruct (step w2) as [prev' w3| |].
  - destruct Hprev as [-> Hp']. assert (prev' = prev) by congruence. subst prev'.
    unfold bind at 1, Block_init, new_block. fold (candidate batch prev d).
    apply mine_finds with (k := k) (b := candidate batch prev d)
                          (l := coinbase_of self ts w :: l); auto.
    + cbn [w2 set_objects set_lists objects]. apply nth_error_last.
    + cbn [w2 set_objects set_lists lists candidate txns]. rewrite Hl1.
      apply nth_error_set_nth_eq. apply nth_error_Some. congruence.
    + lia.
  - congruence.
  - contradiction.
Qed.

Lemma prefix_zeros_get (n : nat) : forall (h : string),
  String.prefix (string_of_list_ascii (repeat "0"%char n)) h = true ->
  forall i, (i < n)%nat -> String.get i h = Some "0"%char.
Proof.
  induction n as [|n IH]; intros h Hp i Hi; [lia|].
  destruct h as [|c h]; [discriminate|].
  cbn [repeat string_of_list_ascii prefix] in Hp.
  destruct (ascii_dec "0" c) as [<-|]; [|discriminate].
  destruct i as [|i]; [reflexivity|]. cbn. apply IH; auto. lia.
Qed.

Lemma mineable_returns (self : Node) (batch : ref) (d : Z) (ts : atom) (w : world) :
  mineable float_repr self batch d ts w ->
  exists fuel r w', Node_process_txns float_repr fuel self batch d ts w = Ok r w'.
Proof.
  intros (l & prev & k & Hl & Hlink & Hk & Hp).
  exists (S (Z.to_nat k)). eapply Node_process_txns_returns; eauto.
Qed.

(** The block a call appends meets its difficulty when the call returns. *)
Lemma Node_process_txns_solved
      (fuel : nat) (self : Node) (batch : ref) (d : Z) (ts : atom) (w w' : world)
      (node' : Node) (blk : ref) (h : string) :
  Node_process_txns float_repr fuel self batch d ts w = Ok (node', (blk, h)) w' ->
  exists (b : Block) (k : Z) (w'' : world),
    blocks node' = blocks self ++ [blk] /\
    nth_error (objects w') blk = Some b /\
    difficulty b = AInt d /\ nonce b = AInt k /\
    Block_get_hash float_repr blk (nonce b) w' = Ok h w'' /\
    forall i, (i < Z.to_nat d)%nat -> String.get i h = Some "0"%char.
Proof.
  intros Hrun. apply Node_process_txns_run in Hrun.
  destruct Hrun as (l & prev & k & Hl & Hlink & Hk & Hh & Hp & Hblk & Hnode & Hobj & Hlists & _).
  exists (set_nonce (candidate batch prev d) (AInt k)), k. eexists.
  assert (Hb : nth_error (objects w') blk
               = Some (set_nonce (candidate batch prev d) (AInt k))).
  { rewrite Hobj, Hblk. apply nth_error_last. }
  repeat split.
  - now rewrite Hnode.
  - exact Hb.
  - rewrite (Block_get_hash_run blk _ w' _ (coinbase_of self ts w :: l) Hb).
    + rewrite Hh. reflexivity.
    + rewrite Hlists. cbn. apply nth_error_set_nth_eq. apply nth_error_Some. congruence.
  - apply prefix_zeros_get. unfold passes in Hp. rewrite Hh. exact Hp.
Qed.

(** Mining on lists of their own keeps every block of the chain solved. *)
Lemma grown_solved (u : atom) (n : Node) (w : world) :
  grown float_repr u n w -> Forall (solved float_repr w) (blocks n).
Proof.
  induction 1 as [w|n w w' _ IH Hkeep|n n' w w' fuel batch d ts blk h _ IH Hfree Hrun].
  - constructor.
  - rewrite Forall_forall in *. intros r Hr.
    destruct (IH r Hr) as (b & l & d & k & Hb & Hl & Hd & Hk & Hp).
    destruct (Hkeep r b Hr Hb) as [Hb' Hl'].
    exists b, l, d, k. rewrite Hl'. auto.
  - apply Node_process_txns_run in Hrun.
    destruct Hrun as (l & prev & k & Hl & Hlink & Hk & Hh & Hp & Hblk & Hnode & Hobj & Hlists & _).
    subst n'. cbn [blocks]. apply Forall_app. split.
    + rewrite Forall_forall in *. intros r Hr.
      destruct (IH r Hr) as (b & l0 & d0 & k0 & Hb & Hl0 & Hd0 & Hk0 & Hp0).
      exists b, l0, d0, k0. split; [rewrite Hobj; now apply nth_error_old|].
      split; [|auto]. rewrite Hlists, nth_error_set_nth_neq; [exact Hl0|].
      intros E. apply Hfree. exists r, b. auto.
    + constructor; [|constructor].
      exists (set_nonce (candidate batch prev d) (AInt k)), (coinbase_of n ts w :: l), d, k.
      split; [rewrite Hobj, Hblk; apply nth_error_last|].
      split. { rewrite Hlists. cbn [set_nonce candidate txns].
               apply nth_error_set_nth_eq. apply nth_error_Some. congruence. }
      split; [reflexivity|]. split; [reflexivity|]. exact Hp.
Qed.

(** C1, amended. The blocks of a chain meet their difficulty as long as
    every list is mined once: when a call of [process_txns] returns, the
    block it appended has the difficulty asked for and the nonce the search
    stopped at, and its digest recomputed with the stored nonce is the hash
    returned and starts with that many ['0']; and in every state reached from
    [Node(uuid)] by calls of [process_txns], each on a list that no block of
    the chain holds, with nothing in between that changes the blocks of the
    chain or their lists, every block of the chain has a difficulty [d] and a
    nonce, and its digest recomputed with the stored nonce has ['0'] at each
    of its first [d] positions. *)
Theorem chain_blocks_keep_their_leading_zeros :
  (forall (fuel : nat) (self : Node) (batch : ref) (d : Z) (ts : atom) (w w' : world)
          (node' : Node) (blk : ref) (h : string),
     Node_process_txns float_repr fuel self batch d ts w = Ok (node', (blk, h)) w' ->
     exists (b : Block) (k : Z) (w'' : world),
       blocks node' = blocks self ++ [blk] /\
       nth_error (objects w') blk = Some b /\
       difficulty b = AInt d /\ nonce b = AInt k /\
       Block_get_hash float_repr blk (nonce b) w' = Ok h w'' /\
       forall i, (i < Z.to_nat d)%nat -> String.get i h = Some "0"%char) /\
  (forall (u : atom) (n : Node) (w : world),
     grown float_repr u n w ->
     Forall (fun r => exists (b : Block) (d k : Z) (h : string) (w' : world),
               nth_error (objects w) r = Some b /\
               difficulty b = AInt d /\ nonce b = AInt k /\
               Block_get_hash float_repr r (nonce b) w = Ok h w' /\
               forall i, (i < Z.to_nat d)%nat -> String.get i h = Some "0"%char)
            (blocks n)).
Proof.
  split; [exact Node_process_txns_solved|].
  intros u n w Hgrown. apply grown_solved in Hgrown.
  eapply Forall_impl; [|exact Hgrown].
  intros r (b & l & d & k & Hb & Hl & Hd & Hk & Hp).
  exists b, d, k. do 2 eexists.
  split; [exact Hb|]. split; [exact Hd|]. split; [exact Hk|]. split.
  - apply (Block_get_hash_run r (nonce b) w b l Hb Hl).
  - apply prefix_zeros_get. rewrite Hk. exact Hp.
Qed.

(** C2. The link of a new block is the tail's own [prev_hash] field: a call
    returns as soon as some nonce passes, and when it returns the new block is
    appended to the chain; its [prev_hash] is the empty string when the
    chain was empty, and the [prev_hash] field of the last block otherwise (not
    that block's digest). In particular a second call on a node that started
    empty gives a chain of two blocks, the second with the [prev_hash] of the
    first. *)
Theorem process_txns_reuses_tail_prev_hash
        (self : Node) (batch : ref) (d : Z) (ts : atom) (w : world) :
  (mineable float_repr self batch d ts w ->
   exists fuel r w', Node_process_txns float_repr fuel self batch d ts w = Ok r w') /\
  forall fuel node' blk h w',
  Node_process_txns float_repr fuel self batch d ts w = Ok (node', (blk, h)) w' ->
  exists b : Block,
    nth_error (objects w') blk = Some b /\
    blocks node' = blocks self ++ [blk] /\
    (blocks self = [] -> prev_hash b = AStr "") /\
    (forall init tail, blocks self = init ++ [tail] ->
       exists t, nth_error (objects w) tail = Some t /\
                 nth_error (objects w') tail = Some t /\
                 prev_hash b = prev_hash t) /\
    (blocks self = [] ->
     forall fuel2 txns2 d2 ts2 node2 blk2 h2 w2,
       Node_process_txns float_repr fuel2 node' txns2 d2 ts2 w' = Ok (node2, (blk2, h2)) w2 ->
       blocks node2 = [blk; blk2] /\
       exists b2, nth_error (objects w2) blk2 = Some b2 /\
                  nth_error (objects w2) blk = Some b /\
                  prev_hash b2 = prev_hash b).
Proof.
  split; [apply mineable_returns|].
  intros fuel node' blk h w' Hrun. apply Node_process_txns_run in Hrun.
  destruct Hrun as (l & prev & k & Hl & Hlink & Hk & Hh & Hp & Hblk & Hnode & Hobj & Hlists & _).
  exists (set_nonce (candidate batch prev d) (AInt k)).
  assert (Hb : nth_error (objects w') blk
               = Some (set_nonce (candidate batch prev d) (AInt k))).
  { rewrite Hobj, Hblk. apply nth_error_last. }
  split; [exact Hb|]. split; [now rewrite Hnode|]. split; [|split].
  - intros Hnil. unfold link_of in Hlink. rewrite Hnil in Hlink. cbn in Hlink. cbn. congruence.
  - intros init tail Hchain. unfold link_of in Hlink.
    rewrite Hchain, rev_app_distr in Hlink. cbn in Hlink.
    destruct (nth_error (objects w) tail) as [t|] eqn:Ht; [|discriminate].
    exists t. split; [reflexivity|]. split.
    + rewrite Hobj. now apply nth_error_old.
    + cbn in Hlink. cbn. congruence.
  - intros Hnil fuel2 txns2 d2 ts2 node2 blk2 h2 w2 Hrun2.
    apply Node_process_txns_run in Hrun2.
    destruct Hrun2 as (l2 & prev2 & k2 & _ & Hlink2 & _ & _ & _ & Hblk2 & Hnode2 & Hobj2 & _).
    split; [rewrite Hnode2, Hnode, Hnil; reflexivity|].
    exists (set_nonce (candidate txns2 prev2 d2) (AInt k2)).
    split; [rewrite Hobj2, Hblk2; apply nth_error_last|].
    split; [rewrite Hobj2; now apply nth_error_old|].
    unfold link_of in Hlink2. rewrite Hnode, Hnil in Hlink2. cbn in Hlink2.
    rewrite Hb in Hlink2. cbn in Hlink2. cbn. congruence.
Qed.

(** C5. The genesis block: on a node with an empty chain and an empty list of
    transactions, a call returns as soon as some nonce passes, and the block it
    returns has the empty string as [prev_hash] and a list of exactly one
    transaction, with no inputs and the single output that credits the node's
    [uuid] with [MINING_COST], which is 1. *)
Theorem genesis_block_has_one_coinbase
        (self : Node) (batch : ref) (d : Z) (ts : atom) (w : world) :
  blocks self = [] ->
  nth_error (lists w) batch = Some [] ->
  (mineable float_repr self batch d ts w ->
   exists fuel r w', Node_process_txns float_repr fuel self batch d ts w = Ok r w') /\
  (forall fuel node' blk h w',
     Node_process_txns float_repr fuel self batch d ts w = Ok (node', (blk, h)) w' ->
     exists (b : Block) (cb : Transaction),
       nth_error (objects w') blk = Some b /\
       prev_hash b = AStr "" /\
       nth_error (lists w') (txns b) = Some [cb] /\
       inputs cb = [] /\
       outputs cb = [{| uuid := Node_uuid self; amount := AInt 1 |}] /\
       MINING_COST = 1).
Proof.
  intros Hnil Hempty. split; [apply mineable_returns|].
  intros fuel node' blk h w' Hrun. apply Node_process_txns_run in Hrun.
  destruct Hrun as (l & prev & k & Hl & Hlink & Hk & Hh & Hp & Hblk & Hnode & Hobj & Hlists & _).
  assert (l = []) by congruence. subst l.
  exists (set_nonce (candidate batch prev d) (AInt k)), (coinbase_of self ts w).
  split; [rewrite Hobj, Hblk; apply nth_error_last|].
  split; [unfold link_of in Hlink; rewrite Hnil in Hlink; cbn in Hlink; cbn; congruence|].
  split; [|repeat split].
  rewrite Hlists. cbn. apply nth_error_set_nth_eq. apply nth_error_Some. congruence.
Qed.

(** C9. [process_txns] changes the list it is given in place: after the call
    the very list object the caller passed holds the coinbase transaction at
    index 0 and each transaction it held at the next index, and that same
    object is the [txns] field of the block returned. *)
Theorem process_txns_mutates_the_list_it_is_given
        (fuel : nat) (self : Node) (batch : ref) (d : Z) (ts : atom) (w w' : world)
        (node' : Node) (blk : ref) (h : string) (l : list Transaction) :
  nth_error (lists w) batch = Some l ->
  Node_process_txns float_repr fuel self batch d ts w = Ok (node', (blk, h)) w' ->
  exists (cb : Transaction) (b : Block),
    nth_error (lists w') batch = Some (cb :: l) /\
    inputs cb = [] /\
    outputs cb = [{| uuid := Node_uuid self; amount := AInt MINING_COST |}] /\
    (forall i t, nth_error l i = Some t -> nth_error (cb :: l) (S i) = Some t) /\
    nth_error (objects w') blk = Some b /\
    txns b = batch.
Proof.
  intros Hl0 Hrun. apply Node_process_txns_run in Hrun.
  destruct Hrun as (l1 & prev & k & Hl & Hlink & Hk & Hh & Hp & Hblk & Hnode & Hobj & Hlists & _).
  assert (l1 = l) by congruence. subst l1.
  exists (coinbase_of self ts w), (set_nonce (candidate batch prev d) (AInt k)).
  split; [rewrite Hlists; apply nth_error_set_nth_eq; apply nth_error_Some; congruence|].
  repeat split; auto.
  rewrite Hobj, Hblk. apply nth_error_last.
Qed.

(** C4. [validate_hash(block, h)] on a string [h] returns, and returns true
    exactly when [h] is the digest of the block computed afresh with its
    stored nonce. *)
Theorem validate_hash_iff_fresh_digest
        (block : ref) (h : string) (w : world) (b : Block) (l : list Transaction) :
  nth_error (objects w) block = Some b ->
  nth_error (lists w) (txns b) = Some l ->
  exists (r : bool) (w1 : world) (dg : string) (w2 : world),
    validate_hash float_repr block (AStr h) w = Ok r w1 /\
    Block_get_hash float_repr block (nonce b) w = Ok dg w2 /\
    (r = true <-> h = dg).
Proof.
  intros Hb Hl. unfold validate_hash, bind at 1, get_block. rewrite Hb. cbn [of_option ret].
  unfold bind. rewrite (Block_get_hash_run block (nonce b) w b l Hb Hl).
  do 4 eexists. split; [reflexivity|]. split; [reflexivity|].
  cbn [py_eq]. rewrite String.eqb_eq. split; congruence.
Qed.

(** C8. The digest of a block does not touch the block: [get_hash(nonce)] and
    [todict(nonce)] return with every block and every list of the store as they
    were (they only print), and a second call with the same nonce returns the
    same string, respectively the same dict. *)
Theorem block_digest_leaves_the_block_unchanged
        (self : ref) (n : atom) (w : world) (b : Block) (l : list Transaction) :
  nth_error (objects w) self = Some b ->
  nth_error (lists w) (txns b) = Some l ->
  exists (h : string) (w1 w2 : world) (dict : json) (w3 w4 : world),
    Block_get_hash float_repr self n w = Ok h w1 /\
    objects w1 = objects w /\ lists w1 = lists w /\
    nth_error (objects w1) self = Some b /\
    Block_get_hash float_repr self n w1 = Ok h w2 /\
    objects w2 = objects w /\ lists w2 = lists w /\
    Block_todict float_repr self n w = Ok dict w3 /\
    objects w3 = objects w /\ lists w3 = lists w /\
    Block_todict float_repr self n w3 = Ok dict w4 /\
    objects w4 = objects w /\ lists w4 = lists w.
Proof.
  intros Hb Hl.
  rewrite (Block_get_hash_run self n w b l Hb Hl).
  rewrite (Block_todict_run self n w b l Hb Hl).
  do 6 eexists. split; [reflexivity|]. split; [reflexivity|]. split; [reflexivity|].
  split; [exact Hb|]. split.
  { apply Block_get_hash_run; assumption. }
  split; [reflexivity|]. split; [reflexivity|]. split; [reflexivity|].
  split; [reflexivity|]. split; [reflexivity|]. split.
  { apply Block_todict_run; assumption. }
  split; reflexivity.
Qed.

(** ** The canonical text *)

Lemma json_dumps_list (l : list json) :
  json_dumps float_repr (JList l)
  = ("[" ++ join ", " (map (json_dumps float_repr) l) ++ "]")%string.
Proof. reflexivity. Qed.

Lemma json_dumps_dict (d : list (string * json)) :
  json_dumps float_repr (JDict d)
  = ("{" ++ join ", " (map item_dumps (sort_items (map (render float_repr) d))) ++ "}")%string.
Proof. reflexivity. Qed.

Lemma json_dumps_same_content (j1 : json) :
  forall j2, same_content j1 j2 -> json_dumps float_repr j1 = json_dumps float_repr j2.
Proof.
  induction j1 as [a|l IH|d IH] using json_induction; intros j2 Hs; inversion Hs; subst.
  - reflexivity.
  - rewrite !json_dumps_list. do 3 f_equal. clear Hs.
    match goal with H : Forall2 _ _ _ |- _ => induction H as [|x y l l' Hxy Hll IHl] end;
      [reflexivity|].
    inversion IH; subst. simpl. f_equal; auto.
  - rewrite !json_dumps_dict. do 4 f_equal. clear Hs.
    assert (Hmap : map (render float_repr) d = map (render float_repr) d2').
    { match goal with H : Forall2 _ _ _ |- _ =>
                      clear - H IH; induction H as [|x y l l' [Hk Hv] Hll IHl] end;
        [reflexivity|].
      inversion IH; subst. simpl. f_equal; auto.
      unfold render. f_equal; auto. }
    rewrite Hmap. apply sort_items_perm.
    + now apply Permutation_map.
    + rewrite <- Hmap. rewrite map_map. cbn [render fst]. assumption.
Qed.

(** C6. The canonical hash: two values with the same content, whatever the
    order in which the items of their dicts were inserted, have the same digest
    in every state, and a digest is 64 characters long, each of them a digit or
    a letter from [a] to [f]. *)
Theorem get_hash_is_canonical (j1 j2 : json) (w1 w2 : world) :
  same_content j1 j2 ->
  exists (h : string) (w1' w2' : world),
    get_hash float_repr j1 w1 = Ok h w1' /\
    get_hash float_repr j2 w2 = Ok h w2' /\
    (forall w, exists w', get_hash float_repr j1 w = Ok h w') /\
    String.length h = 64%nat /\
    forall c, In c (list_ascii_of_string h) -> In c hex_chars.
Proof.
  intros Hs. rewrite !get_hash_run. unfold hash_text.
  rewrite <- (json_dumps_same_content j1 j2 Hs).
  do 3 eexists. split; [reflexivity|]. split; [reflexivity|]. split; [|split].
  - intros w. rewrite get_hash_run. eexists. reflexivity.
  - apply hexdigest_length.
  - apply hexdigest_lower.
Qed.

(** ** Records to dicts and back *)

Lemma py_eq_refl (x : atom) : is_nan x = false -> py_eq x x = true.
Proof.
  destruct x as [|b|z|f|s]; simpl; intros H; auto.
  - now destruct b.
  - apply Z.eqb_refl.
  - destruct f as [s|s| |s m e]; try discriminate; try reflexivity.
    + now destruct s.
    + unfold SFeqb, SFcompare. rewrite Z.compare_refl, Pos.compare_cont_refl.
      now destruct s.
  - apply String.eqb_refl.
Qed.

Lemma truthy_not_zero (x : atom) : truthy x = true -> py_eq x (AInt 0) = false.
Proof.
  destruct x as [|b|z|f|s]; cbn [truthy py_eq]; intros H; auto.
  - now destruct b.
  - now apply negb_true_iff in H.
  - destruct f as [s|s| |s m e]; try discriminate; try reflexivity.
    cbn [float_eq_int]. destruct (0 <=? e) eqn:He.
    + apply Z.eqb_neq. apply Z.leb_le in He.
      assert (0 < 2 ^ e) by (apply Z.pow_pos_nonneg; lia).
      destruct s; nia.
    + now destruct s.
Qed.

Lemma Amount_fromdict_todict (a : Amount) (w : world) :
  Amount_fromdict (Amount_todict a) w = Ok a w.
Proof. destruct a. reflexivity. Qed.

Lemma Amount_eq_refl (a : Amount) : nan_free a = true -> Amount_eq a a = true.
Proof.
  unfold nan_free, Amount_eq. intros H. apply andb_true_iff in H. destruct H as [H1 H2].
  apply negb_true_iff in H1, H2. now rewrite !py_eq_refl.
Qed.

Lemma mapM_Amount_fromdict (l : list Amount) (w : world) :
  mapM Amount_fromdict (map Amount_todict l) w = Ok l w.
Proof.
  induction l as [|a l IH]; [reflexivity|].
  cbn [map mapM]. unfold bind at 1. rewrite Amount_fromdict_todict.
  unfold bind. rewrite IH. reflexivity.
Qed.

Lemma list_eq_Amount_refl (l : list Amount) :
  forallb nan_free l = true -> list_eq Amount_eq l l = true.
Proof.
  induction l as [|a l IH]; simpl; auto. intros H. apply andb_true_iff in H.
  destruct H. rewrite Amount_eq_refl, IH; auto.
Qed.

Lemma Transaction_fromdict_todict (t : Transaction) (w : world) :
  Transaction_fromdict (Transaction_todict t) w
  = Transaction_init (inputs t) (outputs t) (timestamp t) w.
Proof.
  unfold Transaction_fromdict, Transaction_todict.
  unfold bind at 1. cbn [getitem lookup String.eqb Ascii.eqb Bool.eqb of_option].
  unfold scalar, elements, bind, ret. rewrite !mapM_Amount_fromdict. reflexivity.
Qed.

Lemma Transaction_init_truthy (ins outs : list Amount) (ts : atom) (w : world) :
  truthy ts = true ->
  Transaction_init ins outs ts w = Ok {| inputs := ins; outputs := outs; timestamp := ts |} w.
Proof. intros H. unfold Transaction_init. rewrite H. reflexivity. Qed.

Lemma clock_reading_truthy (w : world) (n : nat) :
  clock_positive w -> truthy (AFloat (clock w n)) = true /\ is_nan (AFloat (clock w n)) = false.
Proof. intros H. destruct (H n) as (m & e & ->). split; reflexivity. Qed.

(** C3, amended. Without NaN a record comes back equal from its dict: for an
    [Amount] whose [uuid] and [amount] are not NaN, [fromdict(todict(a)) == a];
    for a [Transaction] the constructor built, with a clock that reads
    positive times, from amounts and a timestamp that are not NaN,
    [fromdict(todict(t)) == t], with the very same timestamp. *)
Theorem round_trip_without_nan :
  (forall (a : Amount) (w : world),
      nan_free a = true ->
      exists (a' : Amount) (w' : world),
        Amount_fromdict (Amount_todict a) w = Ok a' w' /\ Amount_eq a' a = true) /\
  (forall (ins outs : list Amount) (ts : atom) (w0 w : world) (t : Transaction),
      clock_positive w0 ->
      forallb nan_free ins = true -> forallb nan_free outs = true -> is_nan ts = false ->
      Transaction_init ins outs ts w0 = Ok t w ->
      exists (t' : Transaction) (w' : world),
        Transaction_fromdict (Transaction_todict t) w = Ok t' w' /\
        Transaction_eq t' t = true /\
        timestamp t' = timestamp t).
Proof.
  split.
  - intros a w Ha. exists a, w. split; [apply Amount_fromdict_todict|now apply Amount_eq_refl].
  - intros ins outs ts w0 w t Hclock Hins Houts Hts Hinit.
    destruct (Transaction_init_run ins outs ts w0) as (w1 & Hrun & _).
    rewrite Hrun in Hinit. injection Hinit as <- <-.
    set (ts' := if truthy ts then ts else AFloat (clock w0 (reads w0))).
    assert (Hts' : truthy ts' = true /\ is_nan ts' = false).
    { subst ts'. destruct (truthy ts) eqn:E; auto. now apply clock_reading_truthy. }
    destruct Hts' as [Htr Hnn].
    rewrite Transaction_fromdict_todict. cbn [inputs outputs timestamp].
    rewrite (Transaction_init_truthy _ _ _ _ Htr).
    do 2 eexists. split; [reflexivity|]. split; [|reflexivity].
    unfold Transaction_eq. cbn [inputs outputs timestamp].
    rewrite !list_eq_Amount_refl, py_eq_refl; auto.
Qed.

(** C10. A falsy timestamp is replaced by the clock: 0 is falsy; the
    constructor given a falsy timestamp stores the time the clock reads; with a
    clock that reads positive times no constructed [Transaction] has a
    timestamp that is falsy or equal to 0; and [fromdict] on a record whose
    timestamp is 0 gives a transaction stamped with the clock's time, not 0. *)
Theorem falsy_timestamp_is_replaced_by_the_clock :
  truthy (AInt 0) = false /\
  (forall (ins outs : list Amount) (ts : atom) (w : world),
      truthy ts = false ->
      exists w',
        Transaction_init ins outs ts w
        = Ok {| inputs := ins; outputs := outs; timestamp := AFloat (clock w (reads w)) |} w') /\
  (forall (ins outs : list Amount) (ts : atom) (w w' : world) (t : Transaction),
      clock_positive w ->
      Transaction_init ins outs ts w = Ok t w' ->
      truthy (timestamp t) = true /\ py_eq (timestamp t) (AInt 0) = false) /\
  (forall (ins outs : list Amount) (w : world),
      clock_positive w ->
      exists (t : Transaction) (w' : world),
        Transaction_fromdict
          (Transaction_todict {| inputs := ins; outputs := outs; timestamp := AInt 0 |}) w
        = Ok t w' /\
        timestamp t = AFloat (clock w (reads w)) /\
        py_eq (timestamp t) (AInt 0) = false).
Proof.
  split; [reflexivity|]. split; [|split].
  - intros ins outs ts w Hts. destruct (Transaction_init_run ins outs ts w) as (w1 & Hrun & _).
    rewrite Hts in Hrun. eauto.
  - intros ins outs ts w w' t Hclock Hinit.
    destruct (Transaction_init_run ins outs ts w) as (w1 & Hrun & _).
    rewrite Hrun in Hinit. injection Hinit as <- <-. cbn [timestamp].
    assert (Htr : truthy (if truthy ts then ts else AFloat (clock w (reads w))) = true).
    { destruct (truthy ts) eqn:E; auto. now apply clock_reading_truthy. }
    split; [exact Htr|now apply truthy_not_zero].
  - intros ins outs w Hclock. rewrite Transaction_fromdict_todict. cbn [inputs outputs timestamp].
    destruct (Transaction_init_run ins outs (AInt 0) w) as (w1 & Hrun & _).
    rewrite Hrun. cbn [truthy Z.eqb negb]. do 2 eexists. split; [reflexivity|].
    cbn [timestamp]. split; [reflexivity|].
    apply truthy_not_zero. now apply clock_reading_truthy.
Qed.


(** ** [json.loads] reads back what [json.dumps] wrote *)

Lemma uint_text_head (p : positive) :
  exists c t, NilEmpty.string_of_uint (Pos.to_uint p) = String c t
              /\ is_digit c = true /\ c <> "0"%char.
Proof.
  pose proof (to_uint_head p) as Hh.
  destruct (Pos.to_uint p); try contradiction; cbn; do 2 eexists;
    (split; [reflexivity|]); split; try reflexivity; discriminate.
Qed.

Lemma scan_once_int (fuel : nat) (z : Z) (rest : string) :
  closed rest = true ->
  scan_once float_of_string (S fuel) (int_str z ++ rest) = POk (JAtom (AInt z)) rest.
Proof.
  intros H.
  pose proof (int_of_text_int_str z) as Hz. revert Hz.
  unfold int_str. destruct z as [|p|p]; cbn [Z.to_int NilZero.string_of_int]; intros Hz.
  - cbn. rewrite match_frac_closed, match_exp_closed by assumption. reflexivity.
  - pose proof (span_digits_uint (Pos.to_uint p) rest H) as Hs.
    destruct (uint_text_head p) as (c & t & E & Hc & Hc0).
    assert (En : NilZero.string_of_uint (Pos.to_uint p) = String c t).
    { unfold NilZero.string_of_uint. destruct (Pos.to_uint p); auto. discriminate. }
    rewrite En in *. rewrite E in Hs. cbn [append] in Hs |- *.
    destruct (match_integer_digits c t rest Hc Hc0 Hs) as (Hm & _ & Hn & Ht & Hf & Hq & Hb & Hk).
    cbn [scan_once]. rewrite Hq, Hb, Hk. unfold scan_atom. rewrite Hn, Ht, Hf, Hm.
    rewrite match_frac_closed, match_exp_closed by assumption. rewrite Hz. reflexivity.
  - pose proof (span_digits_uint (Pos.to_uint p) rest H) as Hs.
    destruct (uint_text_head p) as (c & t & E & Hc & Hc0).
    assert (En : NilZero.string_of_uint (Pos.to_uint p) = String c t).
    { unfold NilZero.string_of_uint. destruct (Pos.to_uint p); auto. discriminate. }
    rewrite En in *. rewrite E in Hs. cbn [append] in Hs |- *.
    destruct (match_integer_digits c t rest Hc Hc0 Hs) as (_ & Hm & _).
    cbn [scan_once Ascii.eqb Bool.eqb dq]. unfold scan_atom.
    cbn [strip Ascii.eqb Bool.eqb]. rewrite Hm.
    rewrite match_frac_closed, match_exp_closed by assumption. rewrite Hz. reflexivity.
Qed.

Lemma scan_once_atom (fuel : nat) (a : atom) (rest : string) :
  (atom_ok float_repr float_of_string) a -> closed rest = true ->
  scan_once float_of_string (S fuel) (atom_dumps float_repr a ++ rest) = POk (JAtom a) rest.
Proof.
  intros Ha Hc. destruct a as [|[]|z|f|s]; try reflexivity.
  - now apply scan_once_int.
  - destruct f as [sg|[]| |sg m e]; try reflexivity; now apply Ha.
  - cbn [atom_dumps quote append]. rewrite append_assoc. cbn [append scan_once].
    replace (Ascii.eqb dq dq) with true by reflexivity.
    now rewrite scanstring_escape.
Qed.

Lemma scan_once_head (fuel : nat) (s : string) (v : json) (r : string) :
  scan_once float_of_string fuel s = POk v r -> head_ok s = true.
Proof.
  destruct fuel as [|fuel]; [discriminate|]. destruct s as [|c s]; [discriminate|].
  intros H. destruct c as [[] [] [] [] [] [] [] []]; try reflexivity; discriminate H.
Qed.

Lemma skip_ws_head (s : string) : head_ok s = true -> skip_ws s = s.
Proof.
  destruct s as [|c s]; [discriminate|]. cbn [head_ok skip_ws]. intros H.
  apply andb_true_iff in H. destruct H as [H _]. apply negb_true_iff in H. now rewrite H.
Qed.

Lemma head_not_bracket (s : string) :
  head_ok s = true -> exists c s', s = String c s' /\ Ascii.eqb c "]" = false.
Proof.
  destruct s as [|c s]; [discriminate|]. cbn [head_ok]. intros H.
  apply andb_true_iff in H. destruct H as [_ H]. apply negb_true_iff in H. eauto.
Qed.

Lemma list_text_flat (e : json) (l : list json) (rest : string) :
  ((json_text float_repr) (JList (e :: l)) ++ rest = String "[" (json_text float_repr e ++ arr_text float_repr l rest))%string.
Proof.
  cbn [json_text append]. f_equal. rewrite append_assoc. cbn [append].
  revert e. induction l as [|e2 l IH]; intros e; [reflexivity|].
  cbn [map join arr_text]. rewrite !append_assoc. f_equal. cbn [append]. do 2 f_equal.
  apply IH.
Qed.

Lemma dict_text_flat (kv : string * json) (d : list (string * json)) (rest : string) :
  ((json_text float_repr) (JDict (kv :: d)) ++ rest
   = String "{" (String dq (escape (fst kv) ++ String dq
                   (": " ++ (json_text float_repr) (snd kv) ++ obj_text float_repr d rest))))%string.
Proof.
  cbn [json_text append]. f_equal. rewrite append_assoc. cbn [append].
  revert kv. induction d as [|kv2 d IH]; intros kv.
  - cbn [map join obj_text]. unfold item_dumps, quote. cbn [fst snd append].
    repeat rewrite append_assoc. cbn [append]. repeat rewrite append_assoc. reflexivity.
  - specialize (IH kv2). cbn [map join obj_text] in IH |- *.
    rewrite append_assoc. unfold item_dumps at 1, quote. cbn [fst snd append].
    repeat rewrite append_assoc. cbn [append]. repeat rewrite append_assoc.
    cbn [append]. do 8 f_equal. exact IH.
Qed.
    
Lemma closed_arr_text l rest : closed (arr_text float_repr l rest) = true.
Proof. destruct l; reflexivity. Qed.

Lemma closed_obj_text d rest : closed (obj_text float_repr d rest) = true.
Proof. destruct d; reflexivity. Qed.

Lemma scans_head (v : json) (rest : string) :
  (scans float_repr float_of_string) v -> closed rest = true -> head_ok (json_text float_repr v ++ rest) = true.
Proof. intros Hv Hc. eapply scan_once_head. apply (Hv (size v)); auto. Qed.

Lemma JSONArray_text (l : list json) :
  Forall (scans float_repr float_of_string) l ->
  forall (e : json) (fuel : nat) (rest : string),
    (scans float_repr float_of_string) e -> (S (size e + arr_size l) <= fuel)%nat ->
    JSONArray float_of_string fuel (json_text float_repr e ++ arr_text float_repr l rest) = POk (e :: l) rest.
Proof.
  induction 1 as [|e2 l He2 Hl IH]; intros e fuel rest He Hf;
    (destruct fuel as [|fuel]; [lia|]); cbn [JSONArray].
  - rewrite (He fuel) by (cbn in *; lia || reflexivity). reflexivity.
  - rewrite (He fuel) by (cbn in *; lia || apply closed_arr_text).
    cbn [arr_text append skip_ws].
    change (is_ws ",") with false. change (is_ws " ") with true. cbv iota.
    change (Ascii.eqb "," "]") with false. change (Ascii.eqb "," ",") with true.
    cbv iota. cbn [skip_ws]. change (is_ws " ") with true. cbv iota.
    rewrite skip_ws_head by (apply scans_head; auto using closed_arr_text).
    rewrite IH; auto. cbn in Hf. unfold arr_size. lia.
Qed.

Lemma dict_setitem_fresh {A : Type} (k : string) (v : A) (acc : list (string * A)) :
  ~ In k (map fst acc) -> dict_setitem k v acc = acc ++ [(k, v)].
Proof.
  induction acc as [|[k' v'] acc IH]; intros Hn; [reflexivity|].
  cbn [dict_setitem]. destruct (String.eqb_spec k k') as [->|Hne].
  - exfalso. apply Hn. now left.
  - cbn [app]. f_equal. apply IH. intros Hin. apply Hn. now right.
Qed.

Lemma JSONObject_text (d : list (string * json)) :
  Forall (fun kv => scans float_repr float_of_string (snd kv)) d ->
  forall (kv : string * json) (acc : list (string * json)) (fuel : nat) (rest : string),
    (scans float_repr float_of_string) (snd kv) ->
    NoDup (map fst (acc ++ kv :: d)) ->
    (S (size (snd kv) + obj_size d) <= fuel)%nat ->
    JSONObject float_of_string fuel
      (escape (fst kv) ++ String dq (": " ++ (json_text float_repr) (snd kv) ++ obj_text float_repr d rest)) acc
    = POk (JDict (acc ++ kv :: d)) rest.
Proof.
  induction 1 as [|kv2 d Hkv2 Hd IH]; intros [k v] acc fuel rest Hv Hnd Hf;
    (destruct fuel as [|fuel]; [lia|]); cbn [JSONObject fst snd] in *;
    rewrite scanstring_escape; cbn [append skip_ws];
    change (is_ws ":") with false; cbv iota; cbn [skip_ws];
    change (is_ws " ") with true; cbv iota;
    (rewrite skip_ws_head by (apply scans_head; auto using closed_obj_text));
    (rewrite (Hv fuel) by (cbn in *; lia || apply closed_obj_text));
    (rewrite dict_setitem_fresh
      by (rewrite map_app in Hnd; apply NoDup_remove_2 in Hnd;
          intros Hin; apply Hnd; apply in_or_app; now left)).
  - reflexivity.
  - cbn [obj_text append skip_ws].
    change (is_ws ",") with false. change (is_ws " ") with true. cbv iota.
    change (Ascii.eqb "," "}") with false. change (Ascii.eqb "," ",") with true.
    cbv iota. cbn [skip_ws]. change (is_ws " ") with true. cbv iota.
    change (is_ws dq) with false. cbv iota.
    change (Ascii.eqb dq dq) with true. cbv iota.
    replace (acc ++ (k, v) :: kv2 :: d) with ((acc ++ [(k, v)]) ++ kv2 :: d) in *
      by (now rewrite <- app_assoc).
    apply (IH kv2 (acc ++ [(k, v)]) fuel rest Hkv2 Hnd).
    cbn in Hf. unfold obj_size. lia.
Qed.

Lemma scans_all (v : json) : (json_ok float_repr float_of_string) v -> (scans float_repr float_of_string) v.
Proof.
  induction v as [a|l IH|d IH] using json_induction; intros Hok; inversion Hok; subst;
    intros fuel rest Hf Hc; (destruct fuel as [|fuel]; [cbn in Hf; lia|]).
  - now apply scan_once_atom.
  - assert (Hs : Forall (scans float_repr float_of_string) l).
    { apply Forall_forall. intros x Hx. rewrite Forall_forall in IH, H0. auto. }
    destruct Hs as [|e l He Hl]; [reflexivity|].
    rewrite list_text_flat. cbn [scan_once].
    change (Ascii.eqb "[" dq) with false. change (Ascii.eqb "[" "{") with false.
    change (Ascii.eqb "[" "[") with true. cbv iota.
    pose proof (scans_head e (arr_text float_repr l rest) He (closed_arr_text l rest)) as Hh.
    rewrite (skip_ws_head _ Hh).
    destruct (head_not_bracket _ Hh) as (c & s' & E & Hc').
    rewrite E, Hc', <- E. rewrite JSONArray_text; auto.
    cbn in Hf. unfold arr_size. lia.
  - assert (Hs : Forall (fun kv => scans float_repr float_of_string (snd kv)) d).
    { apply Forall_forall. intros x Hx. rewrite Forall_forall in IH, H1. auto. }
    destruct Hs as [|kv d Hkv Hd]; [reflexivity|].
    rewrite dict_text_flat. cbn [scan_once].
    change (Ascii.eqb "{" dq) with false. change (Ascii.eqb "{" "{") with true. cbv iota.
    cbn [skip_ws]. change (is_ws dq) with false. cbv iota.
    change (Ascii.eqb dq "}") with false. change (Ascii.eqb dq dq) with true. cbv iota.
    rewrite (JSONObject_text d Hd kv [] fuel rest Hkv); auto.
    cbn in Hf. unfold obj_size. lia.
Qed.


(** *** From the sorted text to the text of the sorted value *)

Lemma insert_item_map {A B : Type} (f : A -> B) (x : string * A) (l : list (string * A)) :
  insert_item (fst x, f (snd x)) (map (fun kv => (fst kv, f (snd kv))) l)
  = map (fun kv => (fst kv, f (snd kv))) (insert_item x l).
Proof.
  induction l as [|y l IH]; [reflexivity|].
  cbn [map insert_item fst]. destruct (String.leb (fst x) (fst y)); [reflexivity|].
  cbn [map]. now rewrite IH.
Qed.

Lemma sort_items_map {A B : Type} (f : A -> B) (l : list (string * A)) :
  sort_items (map (fun kv => (fst kv, f (snd kv))) l)
  = map (fun kv => (fst kv, f (snd kv))) (sort_items l).
Proof.
  induction l as [|x l IH]; [reflexivity|].
  cbn [map sort_items]. rewrite IH. apply insert_item_map.
Qed.

Lemma insert_item_permutation {A : Type} (x : string * A) (l : list (string * A)) :
  Permutation (insert_item x l) (x :: l).
Proof.
  induction l as [|y l IH]; [reflexivity|].
  cbn [insert_item]. destruct (String.leb (fst x) (fst y)); [reflexivity|].
  rewrite IH. apply perm_swap.
Qed.

Lemma sort_items_permutation {A : Type} (l : list (string * A)) :
  Permutation (sort_items l) l.
Proof.
  induction l as [|x l IH]; [reflexivity|].
  cbn [sort_items]. rewrite insert_item_permutation. now constructor.
Qed.

Lemma json_dumps_canon (v : json) : json_dumps float_repr v = (json_text float_repr) (canon v).
Proof.
  induction v as [a|l IH|d IH] using json_induction.
  - reflexivity.
  - change (json_dumps float_repr (JList l))
      with ("[" ++ join ", " (map (json_dumps float_repr) l) ++ "]")%string.
    cbn [canon json_text]. do 3 f_equal. rewrite map_map.
    apply map_ext_in. intros x Hx. rewrite Forall_forall in IH. auto.
  - change (json_dumps float_repr (JDict d))
      with ("{" ++ join ", " (map item_dumps (sort_items (map (render float_repr) d)))
                ++ "}")%string.
    cbn [canon json_text]. do 3 f_equal.
    unfold render. rewrite !sort_items_map, !map_map. cbn [fst snd].
    apply map_ext_in. intros x Hx. do 2 f_equal.
    rewrite Forall_forall in IH. apply IH.
    eapply Permutation_in; [apply sort_items_permutation|exact Hx].
Qed.

Lemma canon_ok (v : json) : (json_ok float_repr float_of_string) v -> (json_ok float_repr float_of_string) (canon v).
Proof.
  induction v as [a|l IH|d IH] using json_induction; intros Hok; inversion Hok; subst;
    cbn [canon].
  - now constructor.
  - constructor. rewrite Forall_forall in *. intros x Hx.
    apply in_map_iff in Hx. destruct Hx as (y & <- & Hy). auto.
  - constructor.
    + eapply Permutation_NoDup.
      * apply Permutation_map. symmetry. apply sort_items_permutation.
      * rewrite map_map. cbn [fst]. assumption.
    + rewrite Forall_forall in *. intros x Hx.
      eapply Permutation_in in Hx; [|apply sort_items_permutation].
      apply in_map_iff in Hx. destruct Hx as (y & <- & Hy). cbn [snd]. auto.
Qed.

Lemma append_nil_r (a : string) : (a ++ "")%string = a.
Proof. induction a as [|x a IH]; simpl; congruence. Qed.

Lemma size_bound (v : json) : (size v <= S (String.length (json_text float_repr v)))%nat.
Proof.
  induction v as [a|l IH|d IH] using json_induction.
  - cbn. lia.
  - cbn [size json_text]. rewrite !length_append. cbn [String.length].
    enough (arr_size l <= String.length (join ", " (map (json_text float_repr) l)) + 2)%nat
      by (unfold arr_size in *; lia).
    induction IH as [|e l He Hl IHl]; [cbn; lia|].
    destruct l as [|e2 l].
    + cbn in *. lia.
    + cbn [map join] in *. unfold arr_size in *. cbn [fold_right] in *.
      rewrite !length_append. cbn [String.length]. lia.
  - cbn [size json_text]. rewrite !length_append. cbn [String.length].
    enough (obj_size d
            <= String.length
                 (join ", " (map (fun kv => item_dumps (fst kv, (json_text float_repr) (snd kv))) d)) + 2)%nat
      by (unfold obj_size in *; lia).
    induction IH as [|kv d Hkv Hd IHd]; [cbn; lia|].
    assert (Hitem : (size (snd kv)
                     <= String.length (item_dumps (fst kv, (json_text float_repr) (snd kv))))%nat).
    { unfold item_dumps, quote. cbn [fst snd String.length].
      rewrite !length_append. cbn [String.length]. rewrite !length_append.
      cbn [String.length]. lia. }
    destruct d as [|kv2 d].
    + cbn [map join obj_size fold_right] in *. lia.
    + cbn [map join] in *. unfold obj_size in *. cbn [fold_right] in *.
      rewrite !length_append. cbn [String.length]. lia.
Qed.

Lemma json_loads_dumps (v : json) (w : world) :
  (json_ok float_repr float_of_string) v ->
  json_loads float_of_string (json_dumps float_repr v) w = Ok (canon v) w.
Proof.
  intros Hok. apply canon_ok in Hok. rewrite json_dumps_canon.
  pose proof (scans_all _ Hok) as Hs.
  unfold json_loads.
  pose proof (scans_head _ "" Hs eq_refl) as Hh. rewrite append_nil_r in Hh.
  rewrite (skip_ws_head _ Hh).
  pose proof (Hs (S (String.length ((json_text float_repr) (canon v)))) "" (size_bound _) eq_refl)
    as Hrun.
  rewrite append_nil_r in Hrun. rewrite Hrun. reflexivity.
Qed.

(** ** Storing a chain and loading it back *)

Ltac distinct_keys :=
  repeat (constructor; [cbn; intuition discriminate|]); constructor.

Lemma json_ok_list_map {A : Type} (P : A -> Prop) (f : A -> json) (l : list A) :
  (forall x, P x -> (json_ok float_repr float_of_string) (f x)) -> Forall P l -> (json_ok float_repr float_of_string) (JList (map f l)).
Proof.
  intros Hf Hl. constructor. apply Forall_forall. intros x Hx.
  apply in_map_iff in Hx. destruct Hx as (a & <- & Ha).
  rewrite Forall_forall in Hl. auto.
Qed.

Lemma json_ok_Amount (a : Amount) :
  Amount_ok float_repr float_of_string a -> (json_ok float_repr float_of_string) (Amount_todict a).
Proof.
  intros (_ & Hu & Ha). unfold Amount_todict. constructor; [distinct_keys|].
  repeat (apply Forall_cons; [cbn [snd]; now constructor|]). apply Forall_nil.
Qed.

Lemma json_ok_Transaction (t : Transaction) :
  Transaction_ok float_repr float_of_string t -> (json_ok float_repr float_of_string) (Transaction_todict t).
Proof.
  intros (Hi & Ho & _ & _ & Hts). unfold Transaction_todict.
  constructor; [distinct_keys|].
  apply Forall_cons; [cbn [snd]; eapply json_ok_list_map; eauto using json_ok_Amount|].
  apply Forall_cons; [cbn [snd]; eapply json_ok_list_map; eauto using json_ok_Amount|].
  apply Forall_cons; [cbn [snd]; now constructor|]. apply Forall_nil.
Qed.

Lemma json_ok_block_dict (b : Block) (l : list Transaction) :
  (atom_ok float_repr float_of_string) (prev_hash b) -> (atom_ok float_repr float_of_string) (difficulty b) -> (atom_ok float_repr float_of_string) (nonce b) ->
  Forall (Transaction_ok float_repr float_of_string) l ->
  (json_ok float_repr float_of_string) (block_dict float_repr b l ANone).
Proof.
  intros Hp Hd Hn Hl. unfold block_dict, body_dict.
  constructor; [distinct_keys|].
  apply Forall_cons; [cbn [snd]|apply Forall_cons; [cbn [snd]|apply Forall_nil]].
  - constructor; [distinct_keys|].
    repeat (apply Forall_cons; [cbn [snd]; constructor; (assumption || exact I)|]).
    apply Forall_nil.
  - constructor; [distinct_keys|].
    apply Forall_cons; [cbn [snd]|apply Forall_nil].
    eapply json_ok_list_map; eauto using json_ok_Transaction.
Qed.

Lemma Amount_fromdict_canon (a : Amount) (w : world) :
  Amount_fromdict (canon (Amount_todict a)) w = Ok a w.
Proof. destruct a. reflexivity. Qed.

Lemma mapM_Amount_fromdict_canon (l : list Amount) (w : world) :
  mapM Amount_fromdict (map canon (map Amount_todict l)) w = Ok l w.
Proof.
  induction l as [|a l IH]; [reflexivity|].
  cbn [map mapM]. unfold bind at 1. rewrite Amount_fromdict_canon.
  unfold bind. rewrite IH. reflexivity.
Qed.

Lemma canon_Transaction_todict (t : Transaction) :
  canon (Transaction_todict t)
  = JDict [("inputs", JList (map canon (map Amount_todict (inputs t))));
           ("outputs", JList (map canon (map Amount_todict (outputs t))));
           ("timestamp", JAtom (timestamp t))].
Proof. reflexivity. Qed.

Lemma canon_block_dict (b : Block) (l : list Transaction) (n : atom) :
  canon (block_dict float_repr b l n)
  = JDict [("body", JDict [("txns", JList (map canon (map Transaction_todict l)))]);
           ("header",
            JDict [("body_hash", JAtom (AStr (hash_text float_repr (body_dict l))));
                   ("difficulty", JAtom (difficulty b));
                   ("nonce", JAtom match n with ANone => nonce b | _ => n end);
                   ("prev_hash", JAtom (prev_hash b))])].
Proof. reflexivity. Qed.

Lemma Transaction_fromdict_canon (t : Transaction) (w : world) :
  truthy (timestamp t) = true ->
  Transaction_fromdict (canon (Transaction_todict t)) w = Ok t w.
Proof.
  intros Ht. rewrite canon_Transaction_todict. unfold Transaction_fromdict.
  unfold bind at 1. cbn [getitem lookup String.eqb Ascii.eqb Bool.eqb of_option].
  unfold scalar, elements, bind, ret. rewrite !mapM_Amount_fromdict_canon.
  unfold Transaction_init, bind, ret. rewrite Ht. now destruct t.
Qed.

Lemma mapM_Transaction_fromdict_canon (l : list Transaction) (w : world) :
  Forall (fun t => truthy (timestamp t) = true) l ->
  mapM Transaction_fromdict (map canon (map Transaction_todict l)) w = Ok l w.
Proof.
  induction 1 as [|t l Ht Hl IH]; [reflexivity|].
  cbn [map mapM]. unfold bind at 1. rewrite Transaction_fromdict_canon by assumption.
  unfold bind. rewrite IH. reflexivity.
Qed.

Lemma Block_fromdict_canon (b : Block) (l : list Transaction) (n : atom) (w : world) :
  Forall (fun t => truthy (timestamp t) = true) l ->
  Block_fromdict (canon (block_dict float_repr b l n)) w
  = Ok (length (objects w)) (rebuilt b l w).
Proof.
  intros Hl. rewrite canon_block_dict.
  cbv [Block_fromdict bind getitem lookup String.eqb Ascii.eqb Bool.eqb of_option ret
       scalar elements].
  rewrite mapM_Transaction_fromdict_canon by assumption.
  reflexivity.
Qed.


Lemma Block_ok_spec (w : world) (chain : list ref) :
  Forall (Block_ok float_repr float_of_string w) chain ->
  exists specs, Forall2 (has w) chain specs /\ Forall (spec_ok float_repr float_of_string) specs.
Proof.
  induction 1 as [|r chain (b & l & Hb & Hl & H1 & H2 & H3 & H4 & H5 & H6) _ (specs & Hs & Hok)].
  - exists []. split; constructor.
  - exists ((b, l) :: specs). split; constructor; auto; repeat split; auto.
Qed.

Lemma Block_dumps_run (self : ref) (w : world) (b : Block) (l : list Transaction) :
  nth_error (objects w) self = Some b ->
  nth_error (lists w) (txns b) = Some l ->
  Block_dumps float_repr self w
  = Ok (json_dumps float_repr (block_dict float_repr b l ANone))
       (set_stdout (stdout w ++ [json_dumps float_repr (body_dict l)]) w).
Proof.
  intros Hb Hl. unfold Block_dumps, bind.
  rewrite (Block_todict_run self ANone w b l Hb Hl). reflexivity.
Qed.

Lemma strip_insert_statement (data : string) :
  strip "INSERT INTO Blocks VALUES(0, '" (insert_statement data) = Some (data ++ "')")%string.
Proof. reflexivity. Qed.

Lemma sql_literal_quote_free (data : string) :
  quote_free data = true -> sql_literal (data ++ "')") = Some (data, ")").
Proof.
  induction data as [|c data IH]; [reflexivity|].
  cbn [quote_free append sql_literal]. intros H. apply andb_true_iff in H.
  destruct H as [Hc Hrest]. apply negb_true_iff in Hc. rewrite Hc, (IH Hrest). reflexivity.
Qed.

(** A text without a single quote is stored as it is. *)
Lemma execute_quote_free (data : string) (w : world) :
  quote_free data = true ->
  execute (insert_statement data) w = append_row (0, data) w.
Proof.
  intros H. unfold execute.
  rewrite strip_insert_statement, (sql_literal_quote_free data H). reflexivity.
Qed.

Lemma to_db_run (chain : list ref) :
  forall (specs : list (Block * list Transaction)) (w : world),
    Forall2 (has w) chain specs ->
    Forall (fun spec => quote_free (snd (row_of float_repr spec)) = true) specs ->
    exists w1, to_db float_repr chain w = Ok tt w1 /\
               objects w1 = objects w /\ lists w1 = lists w /\ clock w1 = clock w /\
               Blocks w1 = Blocks w ++ map (row_of float_repr) specs.
Proof.
  induction chain as [|r chain IH]; intros specs w Hs Hq;
    inversion Hs as [|? [b l] ? ? [Hb Hl] Hrest]; subst.
  - exists w. repeat split; auto. cbn. now rewrite List.app_nil_r.
  - inversion Hq as [|? ? Hq1 Hq']; subst.
    cbn [fst snd] in *. cbn [to_db]. unfold bind at 1.
    rewrite (Block_dumps_run r w b l Hb Hl). unfold bind at 1.
    rewrite (execute_quote_free _ _ Hq1). cbn [append_row].
    match goal with |- context [to_db _ _ ?w'] => destruct (IH l' w') as (w1 & Hrun & Ho & Hl1 & Hc & HB) end.
    { exact Hrest. }
    { exact Hq'. }
    exists w1. rewrite Hrun, Ho, Hl1, Hc, HB. cbn [set_Blocks set_stdout objects lists clock Blocks map].
    repeat split; auto. now rewrite <- app_assoc.
Qed.

Lemma preserved_refl (w : world) : preserved w w.
Proof. split; auto. Qed.

Lemma preserved_trans (w1 w2 w3 : world) :
  preserved w1 w2 -> preserved w2 w3 -> preserved w1 w3.
Proof. intros [H1 H2] [H3 H4]. split; auto. Qed.

Lemma preserved_rebuilt (b : Block) (l : list Transaction) (w : world) :
  preserved w (rebuilt b l w).
Proof. split; intros i x H; cbn; now apply nth_error_old. Qed.

Lemma from_rows (specs : list (Block * list Transaction)) :
  Forall (spec_ok float_repr float_of_string) specs ->
  forall w : world,
  exists (refs : list ref) (w' : world),
    mapM (fun row => d <- json_loads float_of_string (snd row) ;; Block_fromdict d)
         (map (row_of float_repr) specs) w = Ok refs w'
    /\ preserved w w' /\ Forall2 (rebuilt_as w') refs specs.
Proof.
  set (loader := fun row : Z * string =>
                   d <- json_loads float_of_string (snd row) ;; Block_fromdict d).
  induction 1 as [|[b l] specs (Hnan & Hp & Hd & Hn & Hl & _) Hrest IH]; intros w.
  - exists [], w. split; [reflexivity|]. split; [apply preserved_refl|constructor].
  - cbn [fst snd] in *. cbn [map mapM]. unfold bind at 1. unfold loader at 1.
    unfold bind at 1. unfold row_of at 1. cbn [fst snd].
    rewrite json_loads_dumps by (now apply json_ok_block_dict).
    assert (Htr : Forall (fun t => truthy (timestamp t) = true) l).
    { eapply Forall_impl; [|exact Hl]. intros t (_ & _ & Ht & _). exact Ht. }
    rewrite Block_fromdict_canon by assumption.
    destruct (IH (rebuilt b l w)) as (refs & w' & Hrun & Hpres & Hrefs).
    unfold bind at 1. rewrite Hrun.
    exists (length (objects w) :: refs), w'. split; [reflexivity|].
    split; [eapply preserved_trans; [apply preserved_rebuilt|exact Hpres]|].
    constructor; [|exact Hrefs].
    destruct Hpres as [Hob Hli].
    eexists. split; [apply Hob; cbn; apply nth_error_last|].
    cbn [prev_hash difficulty nonce txns fst snd]. repeat split.
    apply Hli. cbn. apply nth_error_last.
Qed.

Lemma Transaction_eq_refl (t : Transaction) :
  Transaction_ok float_repr float_of_string t -> Transaction_eq t t = true.
Proof.
  intros (Hi & Ho & _ & Hn & _). unfold Transaction_eq.
  rewrite !list_eq_Amount_refl, py_eq_refl; auto;
    apply forallb_forall; intros a Ha;
    [rewrite Forall_forall in Ho; now apply Ho|rewrite Forall_forall in Hi; now apply Hi].
Qed.

Lemma list_eq_Transaction_refl (l : list Transaction) :
  Forall (Transaction_ok float_repr float_of_string) l ->
  list_eq Transaction_eq l l = true.
Proof.
  induction 1 as [|t l Ht Hl IH]; [reflexivity|].
  cbn [list_eq]. now rewrite Transaction_eq_refl, IH.
Qed.

Lemma Block_eq_run (r1 r2 : ref) (w : world) (b1 b2 : Block) (l1 l2 : list Transaction) :
  nth_error (objects w) r1 = Some b1 -> nth_error (objects w) r2 = Some b2 ->
  nth_error (lists w) (txns b1) = Some l1 -> nth_error (lists w) (txns b2) = Some l2 ->
  Block_eq r1 r2 w
  = Ok (py_eq (prev_hash b1) (prev_hash b2) && list_eq Transaction_eq l1 l2) w.
Proof.
  intros H1 H2 H3 H4. unfold Block_eq, bind, get_block, get_list.
  rewrite H1. cbn [of_option ret]. rewrite H2. cbn [of_option ret].
  destruct (py_eq (prev_hash b1) (prev_hash b2)); [|reflexivity].
  rewrite H3. cbn [of_option ret]. rewrite H4. reflexivity.
Qed.

(** C7, amended. Without NaN and without single quotes a chain comes back
    equal from the table: for blocks whose [prev_hash] is not NaN, whose
    transactions have truthy timestamps and no NaN (their floats written by
    [float.__repr__] as the decoder reads them), and whose text written by
    [Block.dumps] has no single quote, [to_db] into the empty table then
    [from_db] return, and give blocks equal to the stored ones under block
    equality, in the same order, each with the [prev_hash], the transactions
    and the [difficulty] of the one stored, and with no nonce. *)
Theorem chain_round_trip_without_nan_or_quote (chain : list ref) (w : world) :
  Blocks w = [] ->
  Forall (Block_ok float_repr float_of_string w) chain ->
  exists (w1 w2 : world) (chain' : list ref),
    to_db float_repr chain w = Ok tt w1 /\
    from_db float_of_string w1 = Ok chain' w2 /\
    Forall2 (fun r r' =>
               Block_eq r' r w2 = Ok true w2 /\
               Block_eq r r' w2 = Ok true w2 /\
               exists b b' l,
                 nth_error (objects w2) r = Some b /\
                 nth_error (objects w2) r' = Some b' /\
                 nth_error (lists w2) (txns b) = Some l /\
                 nth_error (lists w2) (txns b') = Some l /\
                 prev_hash b' = prev_hash b /\
                 difficulty b' = difficulty b /\
                 nonce b' = ANone)
            chain chain'.
Proof.
  intros Hempty Hchain.
  destruct (Block_ok_spec w chain Hchain) as (specs & Hhas & Hok).
  assert (Hq : Forall (fun spec => quote_free (snd (row_of float_repr spec)) = true) specs).
  { eapply Forall_impl; [|exact Hok]. intros spec (_ & _ & _ & _ & _ & H). exact H. }
  destruct (to_db_run chain specs w Hhas Hq) as (w1 & Hto & Ho1 & Hl1 & _ & HB).
  destruct (from_rows specs Hok w1) as (chain' & w2 & Hfrom & [Hpo Hpl] & Hre).
  exists w1, w2, chain'. split; [exact Hto|]. split.
  { unfold from_db, bind, select_rows. rewrite HB, Hempty. exact Hfrom. }
  clear Hto Hfrom HB Hchain Hempty Hq.
  revert chain' Hre. induction Hhas as [|r [b l] chain specs [Hb Hl] Hrest IH];
    intros chain' Hre; inversion Hre as [|r' ? chain'' ? (b' & Hb' & Hp & Hd & Hn & Hl') Hre'];
    subst; constructor.
  - cbn [fst snd] in *. inversion Hok as [|? ? (Hnan & _ & _ & _ & Htx & _) _]; subst.
    cbn [fst snd] in *.
    assert (Hb2 : nth_error (objects w2) r = Some b) by (apply Hpo; now rewrite Ho1).
    assert (Hl2 : nth_error (lists w2) (txns b) = Some l) by (apply Hpl; now rewrite Hl1).
    rewrite (Block_eq_run r' r w2 b' b l l), (Block_eq_run r r' w2 b b' l l); auto.
    rewrite Hp, py_eq_refl, list_eq_Transaction_refl by assumption.
    split; [reflexivity|]. split; [reflexivity|].
    exists b, b', l. repeat split; auto.
  - apply IH; auto. now inversion Hok.
Qed.

End LedgerFacts.

(** * Further properties of the operations *)



Section Coverage.

Variable float_repr : spec_float -> string.
Variable float_of_string : string -> spec_float.

(** ** The search, round by round *)














(** ** Mining *)











(** ** Reading records back *)












(** ** The table *)


Lemma quote_free_append (a b : string) :
  quote_free (a ++ b) = quote_free a && quote_free b.
Proof.
  induction a as [|c a IH]; [reflexivity|].
  cbn [append quote_free]. now rewrite IH, andb_assoc.
Qed.










(** ** Equality *)










End Coverage.

(** * Examples *)

Lemma example_two_blocks :
  exists w1 w2,
    Node_process_txns example_repr 2 matt 0%nat 1 ANone example_world
    = Ok ({| Node_uuid := AStr "matt"; blocks := [0%nat] |},
          (0%nat, "0f49b0abe03dab68d88c2737f23c7eb951ff61f0858dfb8ca5314e01b2f8d2e6")) w1
    /\ Node_process_txns example_repr 2 {| Node_uuid := AStr "matt"; blocks := [0%nat] |}
                         1%nat 1 (AInt 2) w1
       = Ok ({| Node_uuid := AStr "matt"; blocks := [0%nat; 1%nat] |},
             (1%nat, "0ba3ca3aa80eee15d96d7effad24a6f52ebc74f2939390f8f5dd5e614a21fadd")) w2
    /\ lists w1 = [[coinbase_at (AFloat example_time)]; [payment]]
    /\ objects w2 = objects mined_world /\ lists w2 = lists mined_world.
Proof.
  do 2 eexists. split; [vm_compute; reflexivity|]. split; [vm_compute; reflexivity|].
  repeat split.
Qed.

Lemma example_clock_positive : clock_positive example_world.
Proof. intros n. do 2 eexists. reflexivity. Qed.

Lemma example_floats_read_back :
  float_text_ok example_repr example_float one_and_a_half
  /\ float_text_ok example_repr example_float example_time.
Proof. split; intros fuel rest H; closed_cases rest H; reflexivity. Qed.

Lemma example_mineable : mineable example_repr matt 0%nat 1 ANone example_world.
Proof.
  exists [], (AStr ""), 1.
  split; [reflexivity|]. split; [reflexivity|]. split; [lia|]. vm_compute. reflexivity.
Qed.

(** [matt] mines the empty list, then the same list again. *)
Lemma example_same_list_twice :
  exists w1 w2 : world,
    Node_process_txns example_repr 2 matt 0%nat 1 ANone example_world
    = Ok ({| Node_uuid := AStr "matt"; blocks := [0%nat] |},
          (0%nat, "0f49b0abe03dab68d88c2737f23c7eb951ff61f0858dfb8ca5314e01b2f8d2e6")) w1
    /\ Node_process_txns example_repr 1 {| Node_uuid := AStr "matt"; blocks := [0%nat] |}
                         0%nat 1 (AInt 44) w1
       = Ok ({| Node_uuid := AStr "matt"; blocks := [0%nat; 1%nat] |},
             (1%nat, "07ecf633674bd126f763b57b5344bcdfb31427d8a877e01a826496efad52e322")) w2
    /\ objects w2
       = [{| prev_hash := AStr ""; txns := 0%nat; nonce := AInt 1; difficulty := AInt 1 |};
          {| prev_hash := AStr ""; txns := 0%nat; nonce := AInt 0; difficulty := AInt 1 |}]
    /\ nth_error (lists w2) 0%nat
       = Some [coinbase_at (AInt 44); coinbase_at (AFloat example_time)].
Proof.
  do 2 eexists. split; [vm_compute; reflexivity|]. split; [vm_compute; reflexivity|].
  split; reflexivity.
Qed.

(** C1 as stated fails: after [matt] mined the same list twice, the first
    block keeps its nonce and its difficulty, holds the list that now has two
    transactions, and its digest no longer starts with ['0']. *)
Lemma shared_list_breaks_the_first_block :
  exists (w1 w2 : world) (b : Block) (w3 : world),
    Node_process_txns example_repr 2 matt 0%nat 1 ANone example_world
    = Ok ({| Node_uuid := AStr "matt"; blocks := [0%nat] |},
          (0%nat, "0f49b0abe03dab68d88c2737f23c7eb951ff61f0858dfb8ca5314e01b2f8d2e6")) w1
    /\ Node_process_txns example_repr 1 {| Node_uuid := AStr "matt"; blocks := [0%nat] |}
                         0%nat 1 (AInt 44) w1
       = Ok ({| Node_uuid := AStr "matt"; blocks := [0%nat; 1%nat] |},
             (1%nat, "07ecf633674bd126f763b57b5344bcdfb31427d8a877e01a826496efad52e322")) w2
    /\ nth_error (objects w2) 0%nat = Some b
    /\ difficulty b = AInt 1 /\ nonce b = AInt 1
    /\ nth_error (lists w2) (txns b)
       = Some [coinbase_at (AInt 44); coinbase_at (AFloat example_time)]
    /\ Block_get_hash example_repr 0%nat (nonce b) w2
       = Ok "e64085ab5a6bc95e70242071f4c7033ba60c5f718682338ad93d3db2ff6245f3" w3
    /\ String.get 0 "e64085ab5a6bc95e70242071f4c7033ba60c5f718682338ad93d3db2ff6245f3"
       = Some "e"%char.
Proof.
  destruct example_same_list_twice as (w1 & w2 & H1 & H2 & Hobj & Hlist).
  exists w1, w2,
    {| prev_hash := AStr ""; txns := 0%nat; nonce := AInt 1; difficulty := AInt 1 |}.
  eexists.
  assert (Hb : nth_error (objects w2) 0%nat
               = Some {| prev_hash := AStr ""; txns := 0%nat; nonce := AInt 1;
                         difficulty := AInt 1 |}) by (rewrite Hobj; reflexivity).
  split; [exact H1|]. split; [exact H2|]. split; [exact Hb|].
  split; [reflexivity|]. split; [reflexivity|]. split; [exact Hlist|]. split; [|reflexivity].
  rewrite (Block_get_hash_run example_repr 0%nat _ w2 _ _ Hb Hlist).
  cbn [nonce].
  assert (Hh : hash_text example_repr
                 (block_dict example_repr
                    {| prev_hash := AStr ""; txns := 0%nat; nonce := AInt 1;
                       difficulty := AInt 1 |}
                    [coinbase_at (AInt 44); coinbase_at (AFloat example_time)] (AInt 1))
               = "e64085ab5a6bc95e70242071f4c7033ba60c5f718682338ad93d3db2ff6245f3")
    by (vm_compute; reflexivity).
  rewrite Hh. reflexivity.
Qed.

Lemma example_grown :
  exists w2 : world,
    grown example_repr (AStr "matt") {| Node_uuid := AStr "matt"; blocks := [0%nat; 1%nat] |} w2
    /\ objects w2 = objects mined_world /\ lists w2 = lists mined_world.
Proof.
  destruct example_two_blocks as (w1 & w2 & H1 & H2 & _ & Ho & Hl).
  exists w2. split; [|split; assumption].
  eapply grown_mined; [eapply grown_mined; [apply grown_start| |exact H1]| |exact H2].
  - intros (r & b & [] & _).
  - intros (r & b & [<-|[]] & Hb & Ht).
    apply Node_process_txns_run in H1.
    destruct H1 as (l & prev & k & _ & _ & _ & _ & _ & _ & _ & Hobj & _).
    rewrite Hobj in Hb. cbn in Hb. injection Hb as <-. discriminate Ht.
Qed.

Lemma chain_blocks_keep_their_leading_zeros_witness :
  exists w2 : world,
    grown example_repr (AStr "matt") {| Node_uuid := AStr "matt"; blocks := [0%nat; 1%nat] |} w2
    /\ Forall (fun r => exists (b : Block) (d k : Z) (h : string) (w' : world),
                 nth_error (objects w2) r = Some b /\
                 difficulty b = AInt d /\ nonce b = AInt k /\
                 Block_get_hash example_repr r (nonce b) w2 = Ok h w' /\
                 forall i, (i < Z.to_nat d)%nat -> String.get i h = Some "0"%char)
              [0%nat; 1%nat].
Proof.
  destruct example_grown as (w2 & Hgrown & _).
  exists w2. split; [exact Hgrown|].
  destruct (chain_blocks_keep_their_leading_zeros example_repr) as [_ Hchain].
  exact (Hchain _ _ _ Hgrown).
Defined.

Lemma process_txns_reuses_tail_prev_hash_witness :
  exists (w1 w2 : world) (b1 b2 : Block),
    Node_process_txns example_repr 2 matt 0%nat 1 ANone example_world
    = Ok ({| Node_uuid := AStr "matt"; blocks := [0%nat] |},
          (0%nat, "0f49b0abe03dab68d88c2737f23c7eb951ff61f0858dfb8ca5314e01b2f8d2e6")) w1
    /\ Node_process_txns example_repr 2 {| Node_uuid := AStr "matt"; blocks := [0%nat] |}
                         1%nat 1 (AInt 2) w1
       = Ok ({| Node_uuid := AStr "matt"; blocks := [0%nat; 1%nat] |},
             (1%nat, "0ba3ca3aa80eee15d96d7effad24a6f52ebc74f2939390f8f5dd5e614a21fadd")) w2
    /\ nth_error (objects w2) 0%nat = Some b1 /\ nth_error (objects w2) 1%nat = Some b2
    /\ prev_hash b1 = AStr "" /\ prev_hash b2 = prev_hash b1
    /\ exists fuel r w',
        Node_process_txns example_repr fuel matt 0%nat 1 ANone example_world = Ok r w'.
Proof.
  destruct example_two_blocks as (w1 & w2 & H1 & H2 & _).
  destruct (process_txns_reuses_tail_prev_hash example_repr matt 0%nat 1 ANone example_world)
    as [Hret Hpost].
  destruct (Hpost _ _ _ _ _ H1) as (b1 & Hb1 & _ & Hnil & _ & Hnext).
  destruct (Hnext eq_refl _ _ _ _ _ _ _ _ H2) as (_ & b2 & Hb2 & Hb1' & Hlink).
  exists w1, w2, b1, b2. repeat split; auto. apply Hret. exact example_mineable.
Defined.

(** C3 as stated fails: an [Amount] whose amount is NaN comes back from its
    dict, and is not equal to itself. *)
Lemma amount_round_trip_fails_on_nan :
  exists a' : Amount,
    Amount_fromdict (Amount_todict nan_amount) example_world = Ok a' example_world
    /\ Amount_eq a' nan_amount = false.
Proof. exists nan_amount. split; reflexivity. Qed.

Lemma round_trip_without_nan_witness :
  (exists (a' : Amount) (w' : world),
      Amount_fromdict (Amount_todict {| uuid := AStr "fred"; amount := AFloat one_and_a_half |})
                      example_world = Ok a' w'
      /\ Amount_eq a' {| uuid := AStr "fred"; amount := AFloat one_and_a_half |} = true)
  /\ (exists (t : Transaction) (w : world) (t' : Transaction) (w' : world),
         Transaction_init (inputs payment) (outputs payment) ANone example_world = Ok t w
         /\ Transaction_fromdict (Transaction_todict t) w = Ok t' w'
         /\ Transaction_eq t' t = true /\ timestamp t' = timestamp t).
Proof.
  destruct round_trip_without_nan as [Hamount Htxn]. split.
  - apply Hamount. reflexivity.
  - destruct (Htxn (inputs payment) (outputs payment) ANone example_world
                   (set_reads 1 example_world) payment example_clock_positive
                   eq_refl eq_refl eq_refl eq_refl) as (t' & w' & H).
    exists payment, (set_reads 1 example_world), t', w'. split; [reflexivity|exact H].
Defined.

Lemma validate_hash_iff_fresh_digest_witness :
  exists (r : bool) (w1 : world) (dg : string) (w2 : world),
    validate_hash example_repr 0%nat
      (AStr "0f49b0abe03dab68d88c2737f23c7eb951ff61f0858dfb8ca5314e01b2f8d2e6") mined_world
    = Ok r w1
    /\ Block_get_hash example_repr 0%nat (AInt 1) mined_world = Ok dg w2
    /\ (r = true <->
        "0f49b0abe03dab68d88c2737f23c7eb951ff61f0858dfb8ca5314e01b2f8d2e6" = dg).
Proof.
  apply (validate_hash_iff_fresh_digest example_repr 0%nat _ mined_world
           {| prev_hash := AStr ""; txns := 0%nat; nonce := AInt 1; difficulty := AInt 1 |}
           [coinbase_at (AFloat example_time)]); reflexivity.
Defined.

Lemma genesis_block_has_one_coinbase_witness :
  exists (w' : world) (b : Block) (cb : Transaction),
    Node_process_txns example_repr 2 matt 0%nat 1 ANone example_world
    = Ok ({| Node_uuid := AStr "matt"; blocks := [0%nat] |},
          (0%nat, "0f49b0abe03dab68d88c2737f23c7eb951ff61f0858dfb8ca5314e01b2f8d2e6")) w'
    /\ nth_error (objects w') 0%nat = Some b /\ prev_hash b = AStr ""
    /\ nth_error (lists w') (txns b) = Some [cb]
    /\ inputs cb = [] /\ outputs cb = [{| uuid := AStr "matt"; amount := AInt 1 |}]
    /\ exists fuel r w'',
        Node_process_txns example_repr fuel matt 0%nat 1 ANone example_world = Ok r w''.
Proof.
  destruct example_two_blocks as (w1 & w2 & H1 & _).
  destruct (genesis_block_has_one_coinbase example_repr matt 0%nat 1 ANone example_world
              eq_refl eq_refl) as [Hret Hpost].
  destruct (Hpost _ _ _ _ _ H1) as (b & cb & Hb & Hp & Hl & Hi & Ho & _).
  exists w1, b, cb. repeat split; auto. apply Hret. exact example_mineable.
Defined.

Lemma same_content_records : same_content record_a record_b.
Proof.
  apply same_dict with
    (d2' := [("uuid", JAtom (AStr "matt"));
             ("more", JDict [("y", JList [JAtom ANone]); ("x", JAtom (AInt 1))]);
             ("amount", JAtom (AInt 1))]).
  - repeat (constructor; [cbn; intuition discriminate|]). constructor.
  - apply Permutation_rev.
  - repeat constructor.
    apply same_dict with (d2' := [("x", JAtom (AInt 1)); ("y", JList [JAtom ANone])]).
    + repeat (constructor; [cbn; intuition discriminate|]). constructor.
    + apply perm_swap.
    + repeat constructor.
Qed.

Lemma get_hash_is_canonical_witness :
  exists (h : string) (w1' w2' : world),
    get_hash example_repr record_a example_world = Ok h w1'
    /\ get_hash example_repr record_b mined_world = Ok h w2'
    /\ String.length h = 64%nat.
Proof.
  destruct (get_hash_is_canonical example_repr record_a record_b example_world mined_world
              same_content_records) as (h & w1' & w2' & H1 & H2 & _ & Hlen & _).
  exists h, w1', w2'. auto.
Defined.

Lemma mined_chain_ok : Forall (Block_ok example_repr example_float mined_world) mined_chain.
Proof.
  destruct example_floats_read_back as [H15 Ht].
  constructor; [|constructor; [|constructor]].
  - exists {| prev_hash := AStr ""; txns := 0%nat; nonce := AInt 1; difficulty := AInt 1 |},
           [coinbase_at (AFloat example_time)].
    split; [reflexivity|]. split; [reflexivity|]. split; [reflexivity|].
    split; [exact I|]. split; [exact I|]. split; [exact I|]. split.
    + repeat constructor; assumption.
    + vm_compute. reflexivity.
  - exists {| prev_hash := AStr ""; txns := 1%nat; nonce := AInt 1; difficulty := AInt 1 |},
           [coinbase_at (AInt 2); payment].
    split; [reflexivity|]. split; [reflexivity|]. split; [reflexivity|].
    split; [exact I|]. split; [exact I|]. split; [exact I|]. split.
    + repeat constructor; assumption.
    + vm_compute. reflexivity.
Qed.

(** C7 as stated fails: a block that pays NaN is stored and loaded back, and
    the loaded block is not equal to the stored one. *)
Lemma chain_round_trip_fails_on_nan :
  exists w1 w2 : world,
    to_db example_repr [0%nat] nan_world = Ok tt w1
    /\ from_db example_float w1 = Ok [1%nat] w2
    /\ Block_eq 1%nat 0%nat w2 = Ok false w2
    /\ Block_eq 0%nat 1%nat w2 = Ok false w2.
Proof.
  do 2 eexists. split; [vm_compute; reflexivity|]. split; [vm_compute; reflexivity|].
  split; vm_compute; reflexivity.
Qed.

(** It fails on single quotes as well: the text of a block goes between
    single quotes into the statement, where two quotes in a row are read as
    one. The block comes back with another uuid, and is not equal to the one
    stored. *)
Lemma chain_round_trip_fails_on_quote :
  exists w1 w2 : world,
    to_db example_repr [0%nat] quote_world = Ok tt w1
    /\ from_db example_float w1 = Ok [1%nat] w2
    /\ nth_error (lists w2) 1%nat
       = Some [{| inputs := []; outputs := [{| uuid := AStr "a'b"; amount := AInt 1 |}];
                  timestamp := AInt 1 |}]
    /\ Block_eq 1%nat 0%nat w2 = Ok false w2
    /\ Block_eq 0%nat 1%nat w2 = Ok false w2.
Proof.
  do 2 eexists. split; [vm_compute; reflexivity|]. split; [vm_compute; reflexivity|].
  split; [reflexivity|]. split; vm_compute; reflexivity.
Qed.

Lemma chain_round_trip_without_nan_or_quote_witness :
  exists (w1 w2 : world) (chain' : list ref),
    to_db example_repr mined_chain mined_world = Ok tt w1
    /\ from_db example_float w1 = Ok chain' w2
    /\ Forall2 (fun r r' => Block_eq r' r w2 = Ok true w2) mined_chain chain'.
Proof.
  destruct (chain_round_trip_without_nan_or_quote example_repr example_float mined_chain
              mined_world
              eq_refl mined_chain_ok) as (w1 & w2 & chain' & Hto & Hfrom & Heq).
  exists w1, w2, chain'. split; [exact Hto|]. split; [exact Hfrom|].
  eapply Forall2_impl; [|exact Heq]. intros r r' H. apply H.
Defined.

Lemma block_digest_leaves_the_block_unchanged_witness :
  exists (h : string) (w1 w2 : world),
    Block_get_hash example_repr 1%nat (AInt 5) mined_world = Ok h w1
    /\ objects w1 = objects mined_world /\ lists w1 = lists mined_world
    /\ Block_get_hash example_repr 1%nat (AInt 5) w1 = Ok h w2.
Proof.
  destruct (block_digest_leaves_the_block_unchanged example_repr 1%nat (AInt 5) mined_world
              {| prev_hash := AStr ""; txns := 1%nat; nonce := AInt 1; difficulty := AInt 1 |}
              [coinbase_at (AInt 2); payment] eq_refl eq_refl)
    as (h & w1 & w2 & _ & _ & _ & H1 & Ho & Hl & _ & H2 & _).
  exists h, w1, w2. auto.
Defined.

Lemma process_txns_mutates_the_list_it_is_given_witness :
  exists (w1 w2 : world) (cb : Transaction) (b : Block),
    nth_error (lists w1) 1%nat = Some [payment]
    /\ Node_process_txns example_repr 2 {| Node_uuid := AStr "matt"; blocks := [0%nat] |}
                         1%nat 1 (AInt 2) w1
       = Ok ({| Node_uuid := AStr "matt"; blocks := [0%nat; 1%nat] |},
             (1%nat, "0ba3ca3aa80eee15d96d7effad24a6f52ebc74f2939390f8f5dd5e614a21fadd")) w2
    /\ nth_error (lists w2) 1%nat = Some [cb; payment]
    /\ nth_error (objects w2) 1%nat = Some b /\ txns b = 1%nat.
Proof.
  destruct example_two_blocks as (w1 & w2 & _ & H2 & Hl1 & _).
  assert (Hl : nth_error (lists w1) 1%nat = Some [payment]) by (rewrite Hl1; reflexivity).
  destruct (process_txns_mutates_the_list_it_is_given example_repr _ _ _ _ _ _ _ _ _ _ _
              Hl H2) as (cb & b & Hcb & _ & _ & _ & Hb & Ht).
  exists w1, w2, cb, b. auto.
Defined.

Lemma falsy_timestamp_is_replaced_by_the_clock_witness :
  (exists (t : Transaction) (w' : world),
      Transaction_init [] [] (AInt 0) example_world = Ok t w'
      /\ truthy (timestamp t) = true /\ py_eq (timestamp t) (AInt 0) = false)
  /\ (exists (t : Transaction) (w' : world),
         Transaction_fromdict
           (Transaction_todict {| inputs := []; outputs := []; timestamp := AInt 0 |})
           example_world = Ok t w'
         /\ timestamp t = AFloat example_time).
Proof.
  destruct falsy_timestamp_is_replaced_by_the_clock as (_ & Hinit & Hnever & Hfrom). split.
  - destruct (Hinit [] [] (AInt 0) example_world eq_refl) as (w' & Hrun).
    destruct (Hnever _ _ _ _ _ _ example_clock_positive Hrun) as [Ht Hz].
    eauto.
  - destruct (Hfrom [] [] example_world example_clock_positive) as (t & w' & Hrun & Hts & _).
    eauto.
Defined.

(** ** Examples for the further properties *)


















